(** * Library-System: the catalog manager of [library.py]

    A shallow embedding of the domain model ([User], [Book], [BorrowRecord])
    and of the [Library] manager, followed by the properties of the
    specification that concern them.

    Conventions of the embedding.
    - Python [int] is [Z]; [str] is [string], the text in UTF-8: [sub in s]
      on two [str] is an occurrence of the one text in the other.
    - [str.lower] belongs to Python's library, not to this repository:
      [search_books] takes it as its parameter [lower], and what is proved of
      the search is proved for every such function.  Where the model is run
      on sample data, [ascii_lower] or [latin1_lower] stands for it; they are
      [str.lower] on ASCII text and on Latin-1 text.
    - [datetime.date] is the day's proleptic ordinal, a [Z]; adding
      [timedelta(days=n)] adds [n]; the upper limit of [datetime.date]
      (year 9999) is not modelled.  [date.today()] reads the system clock:
      every operation that calls it takes the clock's value as its first
      argument, named [clock].
    - A Python [dict] keeps its keys in insertion order; it is an association
      list in that order, see [Dict].
    - A method that raises returns [Err e] together with the state as it is
      at the [raise]: what was mutated before it stays mutated. *)

From Stdlib Require Import ZArith List String Ascii Bool Lia Sorted.
Import ListNotations.
Local Open Scope string_scope.
Local Open Scope list_scope.
Local Open Scope Z_scope.

(** ** Python dictionaries with integer keys *)

Module Dict.
Section Dict.
Context {V : Type}.

Definition t : Type := list (Z * V).

Definition empty : t := [].

(** [d.get(k)] *)
Fixpoint get (k : Z) (d : t) : option V :=
    match d with
    | [] => None
    | (k', v) :: d' => if k =? k' then Some v else get k d'
    end.

(** [k in d] *)
Definition contains (k : Z) (d : t) : bool :=
    match get k d with Some _ => true | None => false end.

(** [d[k] = v]: an existing key keeps its place, a new key goes last. *)
Fixpoint set (k : Z) (v : V) (d : t) : t :=
    match d with
    | [] => [(k, v)]
    | (k', v') :: d' =>
        if k =? k' then (k, v) :: d' else (k', v') :: set k v d'
    end.

(** [del d[k]] *)
Fixpoint del (k : Z) (d : t) : t :=
    match d with
    | [] => []
    | (k', v') :: d' => if k =? k' then d' else (k', v') :: del k d'
    end.

(** [d.keys()] and [d.values()] *)
Definition keys (d : t) : list Z := map fst d.
Definition values (d : t) : list V := map snd d.
End Dict.
Arguments t : clear implicits.
End Dict.

(** ** Strings *)

(** [str.lower] on ASCII text: 'A'..'Z' go to 'a'..'z'. *)
Definition lower_char (c : ascii) : ascii :=
  let n := nat_of_ascii c in
  if (Nat.leb 65 n && Nat.leb n 90)%bool then ascii_of_nat (n + 32) else c.

Fixpoint ascii_lower (s : string) : string :=
  match s with
  | EmptyString => EmptyString
  | String c s' => String (lower_char c) (ascii_lower s')
  end.



(** [sub in s] for two [str]: [sub] occurs in [s] as a contiguous run. *)
Fixpoint str_in (sub s : string) : bool :=
  if String.prefix sub s then true
  else match s with
       | EmptyString => false
       | String _ s' => str_in sub s'
       end.

(** The truth value of an [Optional[str]]: [None] and [""] are false. *)
Definition truthy (o : option string) : bool :=
  match o with
  | None => false
  | Some EmptyString => false
  | Some _ => true
  end.

(** ** Dates *)

Definition date : Type := Z.

(** [d + timedelta(days=n)] *)
Definition add_days (d : date) (n : Z) : date := d + n.

(** [x or date.today()] for [x : Optional[date]]: a [date] is always true. *)
Definition or_today (clock : date) (x : option date) : date :=
  match x with Some d => d | None => clock end.

(** ** Failures

    Every failure of the source is a [ValueError] with its own message; one
    constructor per [raise] of [library.py]. *)

Inductive error : Type :=
| UserExists (user_id : Z)            (* "User with id .. already exists." *)
| UserNotFound (user_id : Z)          (* "User with id .. not found." *)
| BookExists (book_id : Z)            (* "Book with id .. already exists." *)
| NonPositiveCopies                   (* "total_copies must be positive." *)
| BookNotFound (book_id : Z)          (* "Book with id .. not found." *)
| LessThanBorrowed                    (* "total_copies less than borrowed count." *)
| NotAvailable (title : string)       (* "Book '..' is not available." *)
| NoAvailableCopies (title : string)  (* "No available copies for '..'." *)
| AllCopiesInLibrary (title : string) (* "All copies of '..' are already in library." *)
| RecordNotFound (record_id : Z)      (* "Borrow record with id .. not found." *)
| BookAlreadyReturned                 (* "Book already returned for this record." *)
| BookNoLongerExists.                 (* "Book no longer exists in catalog." *)

(** The kinds of failure that the specification tells apart. *)
Inductive error_kind : Type :=
| NotFound | DuplicateKey | InvalidArgument
| Unavailable | AlreadyReturned | InvariantViolation.

Definition kind (e : error) : error_kind :=
  match e with
  | UserExists _ | BookExists _ => DuplicateKey
  | UserNotFound _ | BookNotFound _ | RecordNotFound _
  | BookNoLongerExists => NotFound
  | NonPositiveCopies | LessThanBorrowed => InvalidArgument
  | NotAvailable _ => Unavailable
  | BookAlreadyReturned => AlreadyReturned
  | NoAvailableCopies _ | AllCopiesInLibrary _ => InvariantViolation
  end.

Inductive result (A : Type) : Type :=
| Ok (a : A)
| Err (e : error).
Arguments Ok {A} a.
Arguments Err {A} e.

(** ** Domain model *)

Module User.
Record t : Type := mk
    { user_id : Z; name : string; email : string }.
End User.

Module Book.
Record t : Type := mk
    { book_id : Z;
      title : string;
      author : string;
      category : string;
      total_copies : Z;
      available_copies : Z }.

(** Attribute assignments. *)
Definition set_title (x : string) (b : t) : t :=
    mk (book_id b) x (author b) (category b) (total_copies b) (available_copies b).
Definition set_author (x : string) (b : t) : t :=
    mk (book_id b) (title b) x (category b) (total_copies b) (available_copies b).
Definition set_category (x : string) (b : t) : t :=
    mk (book_id b) (title b) (author b) x (total_copies b) (available_copies b).
Definition set_total_copies (x : Z) (b : t) : t :=
    mk (book_id b) (title b) (author b) (category b) x (available_copies b).
Definition set_available_copies (x : Z) (b : t) : t :=
    mk (book_id b) (title b) (author b) (category b) (total_copies b) x.

Definition is_available (self : t) : bool := available_copies self >? 0.

Definition borrow_copy (self : t) : result t :=
    if available_copies self <=? 0 then Err (NoAvailableCopies (title self))
    else Ok (set_available_copies (available_copies self - 1) self).

Definition return_copy (self : t) : result t :=
    if available_copies self >=? total_copies self
    then Err (AllCopiesInLibrary (title self))
    else Ok (set_available_copies (available_copies self + 1) self).
End Book.

Module BorrowRecord.
Record t : Type := mk
    { record_id : Z;
      user_id : Z;
      book_id : Z;
      borrow_date : date;
      due_date : date;
      return_date : option date }.

Definition mark_returned (clock : date) (return_date : option date) (self : t) : t :=
    mk (record_id self) (user_id self) (book_id self) (borrow_date self)
       (due_date self) (Some (or_today clock return_date)).

Definition is_overdue (clock : date) (today : option date) (self : t) : bool :=
    match return_date self with
    | Some _ => false
    | None => or_today clock today >? due_date self
    end.
End BorrowRecord.

(** ** The Library manager *)

Record Library : Type := mkLibrary
  { _users : Dict.t User.t;
    _books : Dict.t Book.t;
    _records : Dict.t BorrowRecord.t;
    _next_record_id : Z }.

Definition LOAN_DAYS : Z := 14.

(** [Library.__init__] *)
Definition init : Library :=
  mkLibrary Dict.empty Dict.empty Dict.empty 1.

(** A method of [Library]: it runs on the instance [self] and gives a result
    or a failure, and the instance as the method leaves it. *)
Definition M (A : Type) : Type := Library -> result A * Library.

Definition ret {A} (a : A) : M A := fun self => (Ok a, self).

Definition raise {A} (e : error) : M A := fun self => (Err e, self).

Definition bind {A B} (m : M A) (k : A -> M B) : M B :=
  fun self =>
    match m self with
    | (Ok a, self') => k a self'
    | (Err e, self') => (Err e, self')
    end.

Notation "x <- m ;; k" := (bind m (fun x => k))
  (at level 61, m at next level, right associativity).
Notation "m ;;; k" := (bind m (fun _ => k))
  (at level 61, right associativity).

(** Reading [self]. *)
Definition read : M Library := fun self => (Ok self, self).

(** [self._users[k] = u] *)
Definition store_user (k : Z) (u : User.t) : M unit :=
  fun self =>
    (Ok tt, mkLibrary (Dict.set k u (_users self)) (_books self)
                      (_records self) (_next_record_id self)).

(** Writing the object that [self._books] holds under [k]: [self._books[k] = b],
    and every attribute assignment through a reference to that object. *)
Definition store_book (k : Z) (b : Book.t) : M Book.t :=
  fun self =>
    (Ok b, mkLibrary (_users self) (Dict.set k b (_books self))
                     (_records self) (_next_record_id self)).

(** [del self._books[k]] *)
Definition remove_book (k : Z) : M unit :=
  fun self =>
    (Ok tt, mkLibrary (_users self) (Dict.del k (_books self))
                      (_records self) (_next_record_id self)).

(** The same for the object that [self._records] holds under [k]. *)
Definition store_record (k : Z) (r : BorrowRecord.t) : M BorrowRecord.t :=
  fun self =>
    (Ok r, mkLibrary (_users self) (_books self)
                     (Dict.set k r (_records self)) (_next_record_id self)).

(** [self._next_record_id += 1] *)
Definition incr_next_record_id : M unit :=
  fun self =>
    (Ok tt, mkLibrary (_users self) (_books self) (_records self)
                      (_next_record_id self + 1)).

(** A call of a mutating method of the book held under [k]: the mutated
    object replaces the old one, an exception leaves it as it was. *)
Definition call_book (k : Z) (r : result Book.t) : M Book.t :=
  match r with
  | Ok b => store_book k b
  | Err e => raise e
  end.

(** *** User management *)

Definition add_user (user_id : Z) (name email : string) : M User.t :=
  self <- read ;;
  if Dict.contains user_id (_users self) then raise (UserExists user_id)
  else
    let user := User.mk user_id name email in
    store_user user_id user ;;;
    ret user.

Definition get_user (user_id : Z) : M User.t :=
  self <- read ;;
  match Dict.get user_id (_users self) with
  | None => raise (UserNotFound user_id)
  | Some user => ret user
  end.

(** *** Book management *)

Definition add_book (book_id : Z) (title author category : string)
    (total_copies : Z) : M Book.t :=
  self <- read ;;
  if Dict.contains book_id (_books self) then raise (BookExists book_id)
  else if total_copies <=? 0 then raise NonPositiveCopies
  else
    let book := Book.mk book_id title author category total_copies total_copies in
    store_book book_id book.

(** [if x is not None: book.attr = x] *)
Definition assign_if_given {A} (k : Z) (x : option A)
    (setter : A -> Book.t -> Book.t) (book : Book.t) : M Book.t :=
  match x with
  | Some a => store_book k (setter a book)
  | None => ret book
  end.

Definition update_book (book_id : Z) (title author category : option string)
    (total_copies : option Z) : M Book.t :=
  self <- read ;;
  match Dict.get book_id (_books self) with
  | None => raise (BookNotFound book_id)
  | Some book =>
      book <- assign_if_given book_id title Book.set_title book ;;
      book <- assign_if_given book_id author Book.set_author book ;;
      book <- assign_if_given book_id category Book.set_category book ;;
      match total_copies with
      | None => ret book
      | Some total_copies =>
          if total_copies <? Book.total_copies book - Book.available_copies book
          then raise LessThanBorrowed
          else
            let diff := total_copies - Book.total_copies book in
            book <- store_book book_id (Book.set_total_copies total_copies book) ;;
            book <- store_book book_id
                      (Book.set_available_copies (Book.available_copies book + diff) book) ;;
            book <- (if Book.available_copies book <? 0
                     then store_book book_id (Book.set_available_copies 0 book)
                     else ret book) ;;
            ret book
      end
  end.

Definition delete_book (book_id : Z) : M unit :=
  self <- read ;;
  if negb (Dict.contains book_id (_books self)) then raise (BookNotFound book_id)
  else remove_book book_id.

(** *** Search and listing *)

Section Search.

(** [str.lower] *)
Variable lower : string -> string.

(** [if f and f.lower() not in field.lower(): continue] -- whether the loop
    of [search_books] skips a book because of the filter [f]. *)
Definition skips (f : option string) (field : string) : bool :=
  match f with
  | Some x => truthy f && negb (str_in (lower x) (lower field))
  | None => false
  end.

(** The loop of [search_books] over [self._books.values()]. *)
Fixpoint search_loop (title author category : option string)
    (books : list Book.t) (results : list Book.t) : list Book.t :=
  match books with
  | [] => results
  | book :: rest =>
      if skips title (Book.title book)
      then search_loop title author category rest results
      else if skips author (Book.author book)
      then search_loop title author category rest results
      else if skips category (Book.category book)
      then search_loop title author category rest results
      else search_loop title author category rest (results ++ [book])
  end.

Definition search_books (title author category : option string) : M (list Book.t) :=
  self <- read ;;
  ret (search_loop title author category (Dict.values (_books self)) []).

End Search.

Definition list_all_books : M (list Book.t) :=
  self <- read ;;
  ret (Dict.values (_books self)).

Definition list_available_books : M (list Book.t) :=
  self <- read ;;
  ret (filter Book.is_available (Dict.values (_books self))).

(** *** Borrow and return *)

Definition borrow_book (clock : date) (user_id book_id : Z) : M BorrowRecord.t :=
  user <- get_user user_id ;;
  self <- read ;;
  match Dict.get book_id (_books self) with
  | None => raise (BookNotFound book_id)
  | Some book =>
      if negb (Book.is_available book) then raise (NotAvailable (Book.title book))
      else
        book <- call_book book_id (Book.borrow_copy book) ;;
        let today := clock in
        let due_date := add_days today LOAN_DAYS in
        self <- read ;;
        let record :=
          BorrowRecord.mk (_next_record_id self) (User.user_id user)
            (Book.book_id book) today due_date None in
        store_record (_next_record_id self) record ;;;
        incr_next_record_id ;;;
        ret record
  end.

Definition return_book (clock : date) (record_id : Z) : M BorrowRecord.t :=
  self <- read ;;
  match Dict.get record_id (_records self) with
  | None => raise (RecordNotFound record_id)
  | Some record =>
      match BorrowRecord.return_date record with
      | Some _ => raise BookAlreadyReturned
      | None =>
          match Dict.get (BorrowRecord.book_id record) (_books self) with
          | None => raise BookNoLongerExists
          | Some book =>
              call_book (BorrowRecord.book_id record) (Book.return_copy book) ;;;
              store_record record_id (BorrowRecord.mark_returned clock None record)
          end
      end
  end.

(** [r.user_id == user_id and r.return_date is None] *)
Definition open_for (user_id : Z) (r : BorrowRecord.t) : bool :=
  (BorrowRecord.user_id r =? user_id) &&
  match BorrowRecord.return_date r with None => true | Some _ => false end.

Definition list_user_borrowed_books (user_id : Z) : M (list BorrowRecord.t) :=
  get_user user_id ;;;
  self <- read ;;
  ret (filter (open_for user_id) (Dict.values (_records self))).

Definition list_overdue_records (clock : date) (today : option date)
    : M (list BorrowRecord.t) :=
  self <- read ;;
  ret (filter (BorrowRecord.is_overdue clock today) (Dict.values (_records self))).

(** ** Calls and reachable states *)

(** The public operations of the manager, with their arguments. *)
Inductive op : Type :=
| AddUser (user_id : Z) (name email : string)
| GetUser (user_id : Z)
| AddBook (book_id : Z) (title author category : string) (total_copies : Z)
| UpdateBook (book_id : Z) (title author category : option string)
    (total_copies : option Z)
| DeleteBook (book_id : Z)
| SearchBooks (title author category : option string)
| ListAllBooks
| ListAvailableBooks
| BorrowBook (user_id book_id : Z)
| ReturnBook (record_id : Z)
| ListUserBorrowedBooks (user_id : Z)
| ListOverdueRecords (today : option date).

(** What a call gives back. *)
Inductive value : Type :=
| VNone
| VUser (u : User.t)
| VBook (b : Book.t)
| VBooks (l : list Book.t)
| VRecord (r : BorrowRecord.t)
| VRecords (l : list BorrowRecord.t).

Definition fmap {A B} (f : A -> B) (m : M A) : M B :=
  a <- m ;; ret (f a).

(** One call of a public operation, made while the clock shows [clock].  The
    state after a call does not depend on what [str.lower] does; for the
    result of a search in a run, [ascii_lower] stands for it. *)
Definition call (clock : date) (o : op) : M value :=
  match o with
  | AddUser i n e => fmap VUser (add_user i n e)
  | GetUser i => fmap VUser (get_user i)
  | AddBook i t a c n => fmap VBook (add_book i t a c n)
  | UpdateBook i t a c n => fmap VBook (update_book i t a c n)
  | DeleteBook i => fmap (fun _ => VNone) (delete_book i)
  | SearchBooks t a c => fmap VBooks (search_books ascii_lower t a c)
  | ListAllBooks => fmap VBooks list_all_books
  | ListAvailableBooks => fmap VBooks list_available_books
  | BorrowBook u b => fmap VRecord (borrow_book clock u b)
  | ReturnBook r => fmap VRecord (return_book clock r)
  | ListUserBorrowedBooks u => fmap VRecords (list_user_borrowed_books u)
  | ListOverdueRecords d => fmap VRecords (list_overdue_records clock d)
  end.

(** The states of the manager: the fresh instance and whatever calls of
    public operations make of it. *)
Inductive reachable : Library -> Prop :=
| reachable_init : reachable init
| reachable_call (clock : date) (o : op) (s : Library) :
    reachable s -> reachable (snd (call clock o s)).

(** A run of calls, each with the clock's value at the call. *)
Fixpoint run (calls : list (date * op)) (s : Library) : Library :=
  match calls with
  | [] => s
  | (clock, o) :: rest => run rest (snd (call clock o s))
  end.

(** ** Predicates of the specification *)

(** [0 <= available_copies <= total_copies] *)
Definition book_ok (b : Book.t) : Prop :=
  0 <= Book.available_copies b <= Book.total_copies b.

Definition books_ok (s : Library) : Prop :=
  Forall book_ok (Dict.values (_books s)).







(** The scenario of the specification and of [test_library.py]. *)
Definition alice_1984 : list (date * op) :=
  [ (739000, AddUser 1 "Alice" "a@x.com");
    (739000, AddBook 100 "1984" "Orwell" "Fiction" 2) ].

(** What [update_book] makes of a book when it goes through: the supplied
    texts replace the old ones ... *)
Definition edited (title author category : option string) (b : Book.t) : Book.t :=
  Book.mk (Book.book_id b)
    (match title with Some x => x | None => Book.title b end)
    (match author with Some x => x | None => Book.author b end)
    (match category with Some x => x | None => Book.category b end)
    (Book.total_copies b) (Book.available_copies b).

(** ... and a supplied [total_copies] moves [available_copies] by the same
    amount, not below [0]. *)
Definition resized (total_copies : Z) (b : Book.t) : Book.t :=
  Book.mk (Book.book_id b) (Book.title b) (Book.author b) (Book.category b)
    total_copies
    (Z.max 0 (Book.available_copies b + (total_copies - Book.total_copies b))).

(** [self] with another catalog. *)
Definition with_books (books : Dict.t Book.t) (s : Library) : Library :=
  mkLibrary (_users s) books (_records s) (_next_record_id s).

(** Every object sits under its own id. *)
Definition keyed_by {V : Type} (id : V -> Z) (d : Dict.t V) : Prop :=
  Forall (fun kv => id (snd kv) = fst kv) d.

(** The [n] ids from [start] on, in increasing order. *)
Fixpoint ids_from (start : Z) (n : nat) : list Z :=
  match n with
  | O => []
  | S n' => start :: ids_from (start + 1) n'
  end.

(** The ids [1], [2], ..., [n]. *)
Definition first_ids (n : nat) : list Z := ids_from 1 n.

(** The record ids that the successful [borrow_book] calls of a run gave out,
    in the order of the calls. *)
Definition issued_by (o : op) (r : result value) : list Z :=
  match o, r with
  | BorrowBook _ _, Ok (VRecord record) => [BorrowRecord.record_id record]
  | _, _ => []
  end.

Fixpoint issued (calls : list (date * op)) (s : Library) : list Z :=
  match calls with
  | [] => []
  | (clock, o) :: rest =>
      issued_by o (fst (call clock o s)) ++ issued rest (snd (call clock o s))
  end.

(** What holds of every state the manager can be in. *)
Record wf (s : Library) : Prop := mk_wf
  { wf_users : keyed_by User.user_id (_users s);
    wf_books : keyed_by Book.book_id (_books s);
    wf_nodup : NoDup (Dict.keys (_books s));
    wf_copies : books_ok s;
    wf_records : keyed_by BorrowRecord.record_id (_records s);
    wf_next : 1 <= _next_record_id s;
    wf_ids : Dict.keys (_records s) = first_ids (Z.to_nat (_next_record_id s - 1)) }.

(** Whether a call went through. *)
Definition succeeded {A} (r : result A) : bool :=
  match r with Ok _ => true | Err _ => false end.

Definition is_borrow (o : op) : bool :=
  match o with BorrowBook _ _ => true | _ => false end.

Definition is_update (o : op) : bool :=
  match o with UpdateBook _ _ _ _ _ => true | _ => false end.

(** Alice then borrows both copies, ... *)
Definition both_lent : list (date * op) :=
  alice_1984 ++ [ (739000, BorrowBook 1 100); (739001, BorrowBook 1 100) ].

(** ... and brings the first one back. *)
Definition first_returned : list (date * op) :=
  both_lent ++ [ (739005, ReturnBook 1) ].

(** Bob registers, the book is deleted, and another book is added under its
    id while Alice's second loan is still open. *)
Definition replaced : list (date * op) :=
  first_returned ++
  [ (739006, AddUser 2 "Bob" "b@x.com");
    (739006, DeleteBook 100);
    (739007, AddBook 100 "Brave New World" "Huxley" "Fiction" 3) ].

(** ** What a call does to the state

    Either nothing, or one of the seven writes of [library.py]; [step] names
    them, with what the code has checked before each. *)
Inductive step (clock : date) : op -> Library -> Library -> Prop :=
| step_same o s : step clock o s s
| step_add_user i n e s :
    Dict.get i (_users s) = None ->
    step clock (AddUser i n e) s
      (mkLibrary (Dict.set i (User.mk i n e) (_users s)) (_books s)
         (_records s) (_next_record_id s))
| step_add_book i t a c n s :
    Dict.get i (_books s) = None -> 0 < n ->
    step clock (AddBook i t a c n) s
      (with_books (Dict.set i (Book.mk i t a c n n) (_books s)) s)
| step_edit i t a c n b s :
    Dict.get i (_books s) = Some b ->
    step clock (UpdateBook i t a c n) s
      (with_books (Dict.set i (edited t a c b) (_books s)) s)
| step_resize i t a c n b s :
    Dict.get i (_books s) = Some b ->
    Book.total_copies b - Book.available_copies b <= n ->
    step clock (UpdateBook i t a c (Some n)) s
      (with_books (Dict.set i (resized n (edited t a c b)) (_books s)) s)
| step_delete i b s :
    Dict.get i (_books s) = Some b ->
    step clock (DeleteBook i) s (with_books (Dict.del i (_books s)) s)
| step_borrow u user i b s :
    Dict.get u (_users s) = Some user ->
    Dict.get i (_books s) = Some b ->
    0 < Book.available_copies b ->
    step clock (BorrowBook u i) s
      (mkLibrary (_users s)
         (Dict.set i (Book.set_available_copies (Book.available_copies b - 1) b)
            (_books s))
         (Dict.set (_next_record_id s)
            (BorrowRecord.mk (_next_record_id s) (User.user_id user)
               (Book.book_id b) clock (clock + LOAN_DAYS) None)
            (_records s))
         (_next_record_id s + 1))
| step_return rid r b s :
    Dict.get rid (_records s) = Some r ->
    BorrowRecord.return_date r = None ->
    Dict.get (BorrowRecord.book_id r) (_books s) = Some b ->
    Book.available_copies b < Book.total_copies b ->
    step clock (ReturnBook rid) s
      (mkLibrary (_users s)
         (Dict.set (BorrowRecord.book_id r)
            (Book.set_available_copies (Book.available_copies b + 1) b)
            (_books s))
         (Dict.set rid (BorrowRecord.mark_returned clock None r) (_records s))
         (_next_record_id s)).

(** ** Loans *)

(** [r.return_date is None] *)
Definition is_open (r : BorrowRecord.t) : bool :=
  match BorrowRecord.return_date r with None => true | Some _ => false end.

(** An open record for the book [book_id]. *)
Definition lends (book_id : Z) (r : BorrowRecord.t) : bool :=
  (BorrowRecord.book_id r =? book_id) && is_open r.

(** The number of open records for the book [book_id]. *)
Definition on_loan (book_id : Z) (records : Dict.t BorrowRecord.t) : Z :=
  Z.of_nat (List.length (filter (lends book_id) (Dict.values records))).

(** Every book is short of exactly as many copies as there are open records
    for it, and no open record is for an id without a book. *)
Definition balanced (s : Library) : Prop :=
  (forall k b, Dict.get k (_books s) = Some b ->
     Book.total_copies b - Book.available_copies b = on_loan k (_records s)) /\
  (forall k, Dict.get k (_books s) = None -> on_loan k (_records s) = 0).

Definition is_delete (o : op) : bool :=
  match o with DeleteBook _ => true | _ => false end.

(** A run in which no book is deleted. *)
Definition delete_free (calls : list (date * op)) : bool :=
  forallb (fun c => negb (is_delete (snd c))) calls.

(** The clock does not go back: the calls are made at dates in order, none
    before [start]. *)
Fixpoint in_order (start : date) (calls : list (date * op)) : Prop :=
  match calls with
  | [] => True
  | (clock, _) :: rest => start <= clock /\ in_order clock rest
  end.

(** A record as [borrow_book] makes it and [return_book] closes it: of a
    registered user, due [LOAN_DAYS] after the borrow, borrowed by [now], and
    returned, if it is, between the borrow and [now]. *)
Definition record_ok (users : Dict.t User.t) (r : BorrowRecord.t) : Prop :=
  Dict.contains (BorrowRecord.user_id r) users = true /\
  BorrowRecord.due_date r = BorrowRecord.borrow_date r + LOAN_DAYS.

Definition dated (now : date) (r : BorrowRecord.t) : Prop :=
  BorrowRecord.borrow_date r <= now /\
  match BorrowRecord.return_date r with
  | None => True
  | Some d => BorrowRecord.borrow_date r <= d <= now
  end.

(** The part of a record that [return_book] leaves alone. *)
Definition loan_of (r : BorrowRecord.t) : Z * Z * Z * date * date :=
  (BorrowRecord.record_id r, BorrowRecord.user_id r, BorrowRecord.book_id r,
   BorrowRecord.borrow_date r, BorrowRecord.due_date r).

(** * Properties *)

(** ** Dictionaries *)

Module DictFacts.
Section DictFacts.
Context {V : Type}.
Implicit Types (d : Dict.t V) (k : Z) (v : V).

Lemma get_set_eq k v d : Dict.get k (Dict.set k v d) = Some v.
Proof.
  induction d as [|[k' v'] d IH]; simpl.
  - now rewrite Z.eqb_refl.
  - destruct (k =? k') eqn:E; simpl; rewrite ?Z.eqb_refl, ?E; auto.
Qed.

Lemma get_set_ne k k' v d : k <> k' -> Dict.get k' (Dict.set k v d) = Dict.get k' d.
Proof.
  intros N. induction d as [|[k0 v0] d IH]; simpl.
  - destruct (k' =? k) eqn:E; auto. apply Z.eqb_eq in E. congruence.
  - destruct (k =? k0) eqn:E; simpl.
    + apply Z.eqb_eq in E. subst k0.
      destruct (k' =? k) eqn:E'; auto. apply Z.eqb_eq in E'. congruence.
    + now rewrite IH.
Qed.

Lemma set_same k v d : Dict.get k d = Some v -> Dict.set k v d = d.
Proof.
  induction d as [|[k' v'] d IH]; simpl; [discriminate|].
  destruct (k =? k') eqn:E.
  - apply Z.eqb_eq in E. intros [= ->]. now subst.
  - intros H. now rewrite IH.
Qed.

Lemma set_set k v v' d : Dict.set k v (Dict.set k v' d) = Dict.set k v d.
Proof.
  induction d as [|[k0 v0] d IH]; simpl.
  - now rewrite Z.eqb_refl.
  - destruct (k =? k0) eqn:E; simpl; rewrite ?Z.eqb_refl, ?E; congruence.
Qed.

Lemma get_In k v d : Dict.get k d = Some v -> In (k, v) d.
Proof.
  induction d as [|[k' v'] d IH]; simpl; [discriminate|].
  destruct (k =? k') eqn:E.
  - apply Z.eqb_eq in E. intros [= ->]. left. now subst.
  - auto.
Qed.

Lemma get_In_values k v d : Dict.get k d = Some v -> In v (Dict.values d).
Proof.
  intros H. apply get_In in H. unfold Dict.values.
  change v with (snd (k, v)). now apply in_map.
Qed.

Lemma get_None_keys k d : Dict.get k d = None <-> ~ In k (Dict.keys d).
Proof.
  induction d as [|[k' v'] d IH]; simpl.
  - tauto.
  - destruct (k =? k') eqn:E.
    + apply Z.eqb_eq in E. split; [discriminate | intros N; exfalso; auto].
    + apply Z.eqb_neq in E. rewrite IH. intuition congruence.
Qed.

Lemma contains_get k d :
  Dict.contains k d = true <-> exists v, Dict.get k d = Some v.
Proof.
  unfold Dict.contains. destruct (Dict.get k d); split; eauto.
  - discriminate.
  - intros [v H]. discriminate.
Qed.

Lemma contains_false k d : Dict.contains k d = false <-> Dict.get k d = None.
Proof. unfold Dict.contains. destruct (Dict.get k d); split; congruence. Qed.

(** A key that is there keeps its place. *)
Lemma keys_set_old k v v' d :
  Dict.get k d = Some v' -> Dict.keys (Dict.set k v d) = Dict.keys d.
Proof.
  induction d as [|[k0 v0] d IH]; simpl; [discriminate|].
  destruct (k =? k0) eqn:E; simpl.
  - apply Z.eqb_eq in E. now subst.
  - intros H. now rewrite IH.
Qed.

(** A new key goes last. *)
Lemma set_new k v d : Dict.get k d = None -> Dict.set k v d = d ++ [(k, v)].
Proof.
  induction d as [|[k0 v0] d IH]; simpl; auto.
  destruct (k =? k0); [discriminate|]. intros H. now rewrite IH.
Qed.

Lemma Forall_set (P : Z * V -> Prop) k v d :
  Forall P d -> P (k, v) -> Forall P (Dict.set k v d).
Proof.
  intros F Pv. induction F as [|[k0 v0] d P0 F IH]; simpl.
  - auto.
  - destruct (k =? k0); constructor; auto.
Qed.

Lemma Forall_del (P : Z * V -> Prop) k d : Forall P d -> Forall P (Dict.del k d).
Proof.
  intros F. induction F as [|[k0 v0] d P0 F IH]; simpl; auto.
  destruct (k =? k0); auto.
Qed.

Lemma Forall_values (P : V -> Prop) d :
  Forall P (Dict.values d) <-> Forall (fun kv => P (snd kv)) d.
Proof. unfold Dict.values. now rewrite Forall_map. Qed.

Lemma get_del_ne k k' d : k <> k' -> Dict.get k' (Dict.del k d) = Dict.get k' d.
Proof.
  intros N. induction d as [|[k0 v0] d IH]; simpl; auto.
  destruct (k =? k0) eqn:E; simpl.
  - apply Z.eqb_eq in E. subst k0.
    destruct (k' =? k) eqn:E'; auto. apply Z.eqb_eq in E'. congruence.
  - now rewrite IH.
Qed.

Lemma keys_del_incl k d x : In x (Dict.keys (Dict.del k d)) -> In x (Dict.keys d).
Proof.
  induction d as [|[k0 v0] d IH]; simpl; auto.
  destruct (k =? k0); simpl; intuition.
Qed.

Lemma get_del_eq k d : NoDup (Dict.keys d) -> Dict.get k (Dict.del k d) = None.
Proof.
  induction d as [|[k0 v0] d IH]; simpl; auto.
  intros N. inversion N as [|? ? N1 N2]; subst.
  destruct (k =? k0) eqn:E; simpl.
  - apply Z.eqb_eq in E. subst k0. now apply get_None_keys.
  - rewrite E. auto.
Qed.

Lemma NoDup_del k d : NoDup (Dict.keys d) -> NoDup (Dict.keys (Dict.del k d)).
Proof.
  induction d as [|[k0 v0] d IH]; simpl; auto.
  intros N. inversion N as [|? ? N1 N2]; subst.
  destruct (k =? k0); simpl; auto.
  constructor; auto. intros I. apply N1. eapply keys_del_incl; eauto.
Qed.

Lemma NoDup_set k v d : NoDup (Dict.keys d) -> NoDup (Dict.keys (Dict.set k v d)).
Proof.
  intros N. destruct (Dict.get k d) eqn:G.
  - erewrite keys_set_old; eauto.
  - rewrite set_new by auto. unfold Dict.keys. rewrite map_app. simpl.
    apply NoDup_app; auto.
    + constructor; [intros []|constructor].
    + intros x I J. destruct J as [<-|[]]. apply get_None_keys in G. auto.
Qed.

End DictFacts.
End DictFacts.

(** ** The methods, case by case *)

Ltac unfold_m :=
  unfold bind, ret, raise, read, fmap, store_user, store_book, remove_book,
    store_record, incr_next_record_id, call_book, assign_if_given, with_books.

Lemma update_book_eq book_id title author category total_copies s :
  update_book book_id title author category total_copies s =
  match Dict.get book_id (_books s) with
  | None => (Err (BookNotFound book_id), s)
  | Some b =>
      let b1 := edited title author category b in
      match total_copies with
      | None => (Ok b1, with_books (Dict.set book_id b1 (_books s)) s)
      | Some n =>
          if n <? Book.total_copies b - Book.available_copies b
          then (Err LessThanBorrowed, with_books (Dict.set book_id b1 (_books s)) s)
          else (Ok (resized n b1), with_books (Dict.set book_id (resized n b1) (_books s)) s)
      end
  end.
Proof.
  unfold update_book. unfold_m.
  destruct (Dict.get book_id (_books s)) as [b|] eqn:G; [|reflexivity].
  destruct b as [i t a c n av]. unfold edited, resized.
  destruct title, author, category, total_copies as [m|]; simpl;
    try (destruct (m <? n - av) eqn:L; simpl);
    try (destruct (av + (m - n) <? 0) eqn:L'; simpl);
    rewrite ?DictFacts.set_set;
    try (rewrite Z.max_l by (apply Z.ltb_lt in L'; lia));
    try (rewrite Z.max_r by (apply Z.ltb_ge in L'; lia));
    try reflexivity;
    try (rewrite (DictFacts.set_same _ _ _ G); now destruct s).
Qed.

Lemma get_user_eq user_id s :
  get_user user_id s =
  match Dict.get user_id (_users s) with
  | None => (Err (UserNotFound user_id), s)
  | Some user => (Ok user, s)
  end.
Proof. unfold get_user. unfold_m. now destruct (Dict.get user_id (_users s)). Qed.

Lemma borrow_book_eq clock user_id book_id s :
  borrow_book clock user_id book_id s =
  match Dict.get user_id (_users s) with
  | None => (Err (UserNotFound user_id), s)
  | Some user =>
      match Dict.get book_id (_books s) with
      | None => (Err (BookNotFound book_id), s)
      | Some book =>
          if Book.available_copies book >? 0 then
            let record :=
              BorrowRecord.mk (_next_record_id s) (User.user_id user)
                (Book.book_id book) clock (clock + LOAN_DAYS) None in
            (Ok record,
             mkLibrary (_users s)
               (Dict.set book_id
                  (Book.set_available_copies (Book.available_copies book - 1) book)
                  (_books s))
               (Dict.set (_next_record_id s) record (_records s))
               (_next_record_id s + 1))
          else (Err (NotAvailable (Book.title book)), s)
      end
  end.
Proof.
  unfold borrow_book. unfold bind at 1. rewrite get_user_eq.
  destruct (Dict.get user_id (_users s)) as [user|]; [|reflexivity].
  unfold_m.
  destruct (Dict.get book_id (_books s)) as [book|]; [|reflexivity].
  unfold Book.is_available, Book.borrow_copy.
  destruct (Z.gtb_spec (Book.available_copies book) 0) as [P|P]; simpl; [|reflexivity].
  destruct (Z.leb_spec (Book.available_copies book) 0); [lia|]. reflexivity.
Qed.

Lemma return_book_eq clock record_id s :
  return_book clock record_id s =
  match Dict.get record_id (_records s) with
  | None => (Err (RecordNotFound record_id), s)
  | Some record =>
      match BorrowRecord.return_date record with
      | Some _ => (Err BookAlreadyReturned, s)
      | None =>
          match Dict.get (BorrowRecord.book_id record) (_books s) with
          | None => (Err BookNoLongerExists, s)
          | Some book =>
              if Book.available_copies book >=? Book.total_copies book
              then (Err (AllCopiesInLibrary (Book.title book)), s)
              else
                let record' := BorrowRecord.mark_returned clock None record in
                (Ok record',
                 mkLibrary (_users s)
                   (Dict.set (BorrowRecord.book_id record)
                      (Book.set_available_copies (Book.available_copies book + 1) book)
                      (_books s))
                   (Dict.set record_id record' (_records s))
                   (_next_record_id s))
          end
      end
  end.
Proof.
  unfold return_book. unfold_m.
  destruct (Dict.get record_id (_records s)) as [record|]; [|reflexivity].
  destruct (BorrowRecord.return_date record); [reflexivity|].
  destruct (Dict.get (BorrowRecord.book_id record) (_books s)) as [book|];
    [|reflexivity].
  unfold Book.return_copy.
  now destruct (Book.available_copies book >=? Book.total_copies book).
Qed.

Lemma add_user_eq user_id name email s :
  add_user user_id name email s =
  match Dict.get user_id (_users s) with
  | Some _ => (Err (UserExists user_id), s)
  | None =>
      let user := User.mk user_id name email in
      (Ok user,
       mkLibrary (Dict.set user_id user (_users s)) (_books s) (_records s)
         (_next_record_id s))
  end.
Proof.
  unfold add_user, Dict.contains. unfold_m.
  now destruct (Dict.get user_id (_users s)).
Qed.

Lemma add_book_eq book_id title author category total_copies s :
  add_book book_id title author category total_copies s =
  match Dict.get book_id (_books s) with
  | Some _ => (Err (BookExists book_id), s)
  | None =>
      if total_copies <=? 0 then (Err NonPositiveCopies, s)
      else
        let book := Book.mk book_id title author category total_copies total_copies in
        (Ok book, with_books (Dict.set book_id book (_books s)) s)
  end.
Proof.
  unfold add_book, Dict.contains. unfold_m.
  destruct (Dict.get book_id (_books s)); [reflexivity|].
  now destruct (total_copies <=? 0).
Qed.

Lemma delete_book_eq book_id s :
  delete_book book_id s =
  match Dict.get book_id (_books s) with
  | None => (Err (BookNotFound book_id), s)
  | Some _ => (Ok tt, with_books (Dict.del book_id (_books s)) s)
  end.
Proof.
  unfold delete_book, Dict.contains. unfold_m.
  now destruct (Dict.get book_id (_books s)).
Qed.


(** ** Strings *)







(** ** What every reachable state satisfies *)

Lemma snd_fmap {A B} (f : A -> B) (m : M A) s : snd (fmap f m s) = snd (m s).
Proof. unfold fmap, bind, ret. now destruct (m s) as [[a|e] s']. Qed.

Lemma succeeded_fmap {A B} (f : A -> B) (m : M A) s :
  succeeded (fst (fmap f m s)) = succeeded (fst (m s)).
Proof. unfold fmap, bind, ret. now destruct (m s) as [[a|e] s']. Qed.

Lemma values_set_ok (P : Book.t -> Prop) k b (d : Dict.t Book.t) :
  Forall P (Dict.values d) -> P b -> Forall P (Dict.values (Dict.set k b d)).
Proof.
  rewrite !DictFacts.Forall_values. intros F H.
  now apply DictFacts.Forall_set.
Qed.

Lemma values_del_ok (P : Book.t -> Prop) k (d : Dict.t Book.t) :
  Forall P (Dict.values d) -> Forall P (Dict.values (Dict.del k d)).
Proof.
  rewrite !DictFacts.Forall_values. apply DictFacts.Forall_del.
Qed.

Lemma get_book_ok k b s : books_ok s -> Dict.get k (_books s) = Some b -> book_ok b.
Proof.
  unfold books_ok. rewrite Forall_forall. intros F G.
  apply F. eapply DictFacts.get_In_values; eauto.
Qed.

Lemma get_keyed {V} (id : V -> Z) k v (d : Dict.t V) :
  keyed_by id d -> Dict.get k d = Some v -> id v = k.
Proof.
  unfold keyed_by. rewrite Forall_forall. intros F G.
  apply (F (k, v)). now apply DictFacts.get_In.
Qed.

Lemma book_ok_edited t a c b : book_ok b -> book_ok (edited t a c b).
Proof. auto. Qed.

Lemma book_ok_resized n b :
  book_ok b -> ~ n < Book.total_copies b - Book.available_copies b ->
  book_ok (resized n b).
Proof. unfold book_ok, resized. simpl. lia. Qed.

Lemma ids_from_snoc a n : ids_from a (S n) = ids_from a n ++ [a + Z.of_nat n].
Proof.
  revert a. induction n as [|n IH]; intros a.
  - simpl. now rewrite Z.add_0_r.
  - change (ids_from a (S (S n))) with (a :: ids_from (a + 1) (S n)).
    rewrite IH. simpl. do 3 f_equal. lia.
Qed.

Lemma ids_from_bound a n x : In x (ids_from a n) <-> a <= x < a + Z.of_nat n.
Proof.
  revert a. induction n as [|n IH]; intros a; simpl.
  - lia.
  - rewrite IH. lia.
Qed.

Lemma ids_from_sorted a n : StronglySorted Z.lt (ids_from a n).
Proof.
  revert a. induction n as [|n IH]; intros a; simpl; constructor; auto.
  apply Forall_forall. intros x I. apply ids_from_bound in I. lia.
Qed.

Lemma ids_from_NoDup a n : NoDup (ids_from a n).
Proof.
  revert a. induction n as [|n IH]; intros a; simpl; constructor; auto.
  rewrite ids_from_bound. lia.
Qed.

Lemma first_ids_S n : first_ids (S n) = first_ids n ++ [Z.of_nat (S n)].
Proof. unfold first_ids. rewrite ids_from_snoc. do 2 f_equal. lia. Qed.

Lemma first_ids_bound n x : In x (first_ids n) <-> 1 <= x <= Z.of_nat n.
Proof. unfold first_ids. rewrite ids_from_bound. lia. Qed.

Lemma next_id_fresh s : wf s -> Dict.get (_next_record_id s) (_records s) = None.
Proof.
  intros W. apply DictFacts.get_None_keys.
  rewrite (wf_ids s W), first_ids_bound.
  pose proof (wf_next s W). lia.
Qed.

Lemma wf_init : wf init.
Proof.
  constructor; simpl; try constructor; try lia.
Qed.

Lemma wf_update_book i t a c n s : wf s -> wf (snd (update_book i t a c n s)).
Proof.
  intros W. rewrite update_book_eq.
  destruct (Dict.get i (_books s)) as [b|] eqn:G; [|exact W].
  pose proof (get_book_ok _ _ _ (wf_copies s W) G) as Hb.
  pose proof (get_keyed _ _ _ _ (wf_books s W) G) as Hk.
  assert (K : forall b', Book.book_id b' = i -> book_ok b' ->
                wf (with_books (Dict.set i b' (_books s)) s)).
  { intros b' E O. destruct W. constructor; simpl; auto.
    - apply DictFacts.Forall_set; auto.
    - now apply DictFacts.NoDup_set.
    - apply values_set_ok; auto. }
  cbv zeta. destruct n as [n|]; simpl.
  - destruct (Z.ltb_spec n (Book.total_copies b - Book.available_copies b));
      simpl; apply K; auto.
    apply book_ok_resized; [now apply book_ok_edited | simpl; lia].
  - apply K; auto.
Qed.

Lemma wf_borrow_book clock u i s : wf s -> wf (snd (borrow_book clock u i s)).
Proof.
  intros W. rewrite borrow_book_eq.
  destruct (Dict.get u (_users s)) as [user|]; [|exact W].
  destruct (Dict.get i (_books s)) as [b|] eqn:G; [|exact W].
  destruct (Z.gtb_spec (Book.available_copies b) 0) as [P|P]; [|exact W].
  pose proof (get_book_ok _ _ _ (wf_copies s W) G) as Hb.
  pose proof (get_keyed _ _ _ _ (wf_books s W) G) as Hk.
  pose proof (next_id_fresh s W) as F.
  destruct W. cbv zeta. constructor; simpl; auto.
  - apply DictFacts.Forall_set; auto.
  - now apply DictFacts.NoDup_set.
  - apply values_set_ok; auto. unfold book_ok in *. simpl. lia.
  - apply DictFacts.Forall_set; auto.
  - lia.
  - rewrite DictFacts.set_new by exact F.
    unfold Dict.keys in *. rewrite map_app, wf_ids0. simpl.
    replace (Z.to_nat (_next_record_id s + 1 - 1))
      with (S (Z.to_nat (_next_record_id s - 1))) by lia.
    rewrite first_ids_S. do 2 f_equal. lia.
Qed.

Lemma wf_return_book clock r s : wf s -> wf (snd (return_book clock r s)).
Proof.
  intros W. rewrite return_book_eq.
  destruct (Dict.get r (_records s)) as [record|] eqn:G; [|exact W].
  destruct (BorrowRecord.return_date record); [exact W|].
  destruct (Dict.get (BorrowRecord.book_id record) (_books s)) as [b|] eqn:Gb;
    [|exact W].
  destruct (Z.geb_spec (Book.available_copies b) (Book.total_copies b)) as [P|P];
    [exact W|].
  pose proof (get_book_ok _ _ _ (wf_copies s W) Gb) as Hb.
  pose proof (get_keyed _ _ _ _ (wf_books s W) Gb) as Hk.
  pose proof (get_keyed _ _ _ _ (wf_records s W) G) as Hr.
  destruct W. cbv zeta. constructor; simpl; auto.
  - apply DictFacts.Forall_set; auto.
  - now apply DictFacts.NoDup_set.
  - apply values_set_ok; auto. unfold book_ok in *. simpl. lia.
  - apply DictFacts.Forall_set; auto.
  - erewrite DictFacts.keys_set_old; eauto.
Qed.

Lemma wf_call clock o s : wf s -> wf (snd (call clock o s)).
Proof.
  intros W. destruct o; cbn [call]; rewrite snd_fmap;
    try exact W.
  - rewrite add_user_eq. destruct (Dict.get user_id (_users s)); [exact W|].
    destruct W. constructor; simpl; auto.
    apply DictFacts.Forall_set; auto.
  - rewrite get_user_eq. now destruct (Dict.get user_id (_users s)).
  - rewrite add_book_eq. destruct (Dict.get book_id (_books s)); [exact W|].
    destruct (Z.leb_spec total_copies 0); [exact W|].
    destruct W. constructor; simpl; auto.
    + apply DictFacts.Forall_set; auto.
    + now apply DictFacts.NoDup_set.
    + apply values_set_ok; auto. unfold book_ok. simpl. lia.
  - now apply wf_update_book.
  - rewrite delete_book_eq. destruct (Dict.get book_id (_books s)); [|exact W].
    destruct W. constructor; simpl; auto.
    + now apply DictFacts.Forall_del.
    + now apply DictFacts.NoDup_del.
    + now apply values_del_ok.
  - now apply wf_borrow_book.
  - now apply wf_return_book.
  - unfold list_user_borrowed_books. unfold bind at 1. rewrite get_user_eq.
    now destruct (Dict.get user_id (_users s)).
Qed.

Lemma reachable_wf s : reachable s -> wf s.
Proof. induction 1; [apply wf_init | now apply wf_call]. Qed.

Lemma reachable_run calls s : reachable s -> reachable (run calls s).
Proof.
  revert s. induction calls as [|[clock o] calls IH]; intros s R; simpl; auto.
  apply IH. now constructor.
Qed.

(** ** Failures other than those of [update_book] change nothing *)

Lemma failure_leaves_state clock o s :
  is_update o = false -> succeeded (fst (call clock o s)) = false ->
  snd (call clock o s) = s.
Proof.
  destruct o; cbn [call is_update]; try discriminate; intros _;
    rewrite succeeded_fmap, snd_fmap.
  - rewrite add_user_eq. now destruct (Dict.get user_id (_users s)).
  - rewrite get_user_eq. now destruct (Dict.get user_id (_users s)).
  - rewrite add_book_eq. destruct (Dict.get book_id (_books s)); auto.
    now destruct (total_copies <=? 0).
  - rewrite delete_book_eq. now destruct (Dict.get book_id (_books s)).
  - rewrite borrow_book_eq. destruct (Dict.get user_id (_users s)); auto.
    destruct (Dict.get book_id (_books s)) as [b|]; auto.
    now destruct (Book.available_copies b >? 0).
  - rewrite return_book_eq. destruct (Dict.get record_id (_records s)) as [r|]; auto.
    destruct (BorrowRecord.return_date r); auto.
    destruct (Dict.get (BorrowRecord.book_id r) (_books s)) as [b|]; auto.
    now destruct (Book.available_copies b >=? Book.total_copies b).
  - unfold list_user_borrowed_books. unfold bind at 1 3. rewrite get_user_eq.
    now destruct (Dict.get user_id (_users s)).
Qed.

(** A failing [update_book] has already written the texts it was given. *)
Lemma update_book_failure book_id title author category n b s :
  Dict.get book_id (_books s) = Some b ->
  n < Book.total_copies b - Book.available_copies b ->
  update_book book_id title author category (Some n) s =
  (Err LessThanBorrowed,
   with_books (Dict.set book_id (edited title author category b) (_books s)) s).
Proof.
  intros G L. rewrite update_book_eq, G. cbv zeta.
  destruct (Z.ltb_spec n (Book.total_copies b - Book.available_copies b)); [auto|lia].
Qed.

(** ** The copies invariant *)

(** C1. If every book satisfies [0 <= available_copies <= total_copies]
    before a call of a public operation, every book satisfies it after the
    call, whether the call went through or raised. *)
Theorem copies_invariant_preserved clock o s :
  books_ok s -> books_ok (snd (call clock o s)).
Proof.
  intros B. destruct o; cbn [call]; rewrite snd_fmap; try exact B.
  - rewrite add_user_eq. now destruct (Dict.get user_id (_users s)).
  - rewrite get_user_eq. now destruct (Dict.get user_id (_users s)).
  - rewrite add_book_eq. destruct (Dict.get book_id (_books s)); [exact B|].
    destruct (Z.leb_spec total_copies 0); [exact B|].
    apply values_set_ok; auto. unfold book_ok. simpl. lia.
  - rewrite update_book_eq.
    destruct (Dict.get book_id (_books s)) as [b|] eqn:G; [|exact B].
    pose proof (get_book_ok _ _ _ B G) as Hb. cbv zeta.
    destruct total_copies as [n|].
    + destruct (Z.ltb_spec n (Book.total_copies b - Book.available_copies b)).
      * apply values_set_ok; auto.
      * apply values_set_ok; auto.
        apply book_ok_resized; [now apply book_ok_edited | simpl; lia].
    + apply values_set_ok; auto.
  - rewrite delete_book_eq. destruct (Dict.get book_id (_books s)); [|exact B].
    now apply values_del_ok.
  - rewrite borrow_book_eq. destruct (Dict.get user_id (_users s)); [|exact B].
    destruct (Dict.get book_id (_books s)) as [b|] eqn:G; [|exact B].
    destruct (Z.gtb_spec (Book.available_copies b) 0); [|exact B].
    pose proof (get_book_ok _ _ _ B G) as Hb.
    apply values_set_ok; auto. unfold book_ok in *. simpl. lia.
  - rewrite return_book_eq.
    destruct (Dict.get record_id (_records s)) as [r|]; [|exact B].
    destruct (BorrowRecord.return_date r); [exact B|].
    destruct (Dict.get (BorrowRecord.book_id r) (_books s)) as [b|] eqn:G; [|exact B].
    destruct (Z.geb_spec (Book.available_copies b) (Book.total_copies b)); [exact B|].
    pose proof (get_book_ok _ _ _ B G) as Hb.
    apply values_set_ok; auto. unfold book_ok in *. simpl. lia.
  - unfold list_user_borrowed_books. unfold bind at 1. rewrite get_user_eq.
    now destruct (Dict.get user_id (_users s)).
Qed.

Lemma copies_invariant_preserved_witness :
  books_ok (run alice_1984 init) /\
  books_ok (snd (call 739000 (BorrowBook 1 100) (run alice_1984 init))).
Proof.
  assert (B : books_ok (run alice_1984 init)).
  { unfold books_ok, book_ok. simpl. repeat constructor; simpl; lia. }
  split; [exact B|].
  apply (copies_invariant_preserved 739000 (BorrowBook 1 100) _ B).
Defined.

(** ** Failures *)

(** C2, at an input where the code departs from it.  With both copies of
    book 100 lent, [update_book(100, title="Animal Farm", total_copies=1)]
    raises "total_copies less than borrowed count." and the book is left with
    the new title. *)
Theorem update_book_failure_keeps_new_title :
  let s := run both_lent init in
  let out := update_book 100 (Some "Animal Farm") None None (Some 1) s in
  fst out = Err LessThanBorrowed /\
  kind LessThanBorrowed = InvalidArgument /\
  Dict.get 100 (_books s) = Some (Book.mk 100 "1984" "Orwell" "Fiction" 2 0) /\
  Dict.get 100 (_books (snd out)) =
    Some (Book.mk 100 "Animal Farm" "Orwell" "Fiction" 2 0) /\
  snd out <> s.
Proof.
  cbv zeta. repeat split; try reflexivity. discriminate.
Qed.

(** C3. [return_book] on a record whose [return_date] is set raises "Book
    already returned for this record." and leaves the whole state as it was:
    no book's [available_copies] moves and no record changes. *)
Theorem return_closed_record_fails clock record_id r d s :
  Dict.get record_id (_records s) = Some r ->
  BorrowRecord.return_date r = Some d ->
  return_book clock record_id s = (Err BookAlreadyReturned, s) /\
  kind BookAlreadyReturned = AlreadyReturned.
Proof.
  intros G D. split; [|reflexivity].
  rewrite return_book_eq, G, D. reflexivity.
Qed.

Lemma return_closed_record_fails_witness :
  let s := run first_returned init in
  return_book 739020 1 s = (Err BookAlreadyReturned, s) /\
  kind BookAlreadyReturned = AlreadyReturned.
Proof.
  apply (return_closed_record_fails 739020 1
           (BorrowRecord.mk 1 1 100 739000 739014 (Some 739005)) 739005
           (run first_returned init)); reflexivity.
Defined.

(** ** Borrowing and returning *)

Lemma unborrow_copy (b : Book.t) :
  Book.set_available_copies (Book.available_copies b - 1 + 1)
    (Book.set_available_copies (Book.available_copies b - 1) b) = b.
Proof.
  destruct b as [i t a c n av]. unfold Book.set_available_copies. simpl.
  f_equal. lia.
Qed.

(** C4. Where user and book exist and the book has a copy available,
    [borrow_book] followed at once by [return_book] on the id of the record
    it gave goes through, and the book's [available_copies] is what it was
    before the borrow (the whole catalog is). *)
Theorem borrow_then_return_restores clock clock' user_id book_id user book s :
  reachable s ->
  Dict.get user_id (_users s) = Some user ->
  Dict.get book_id (_books s) = Some book ->
  0 < Book.available_copies book ->
  exists record s1 record' s2 book',
    borrow_book clock user_id book_id s = (Ok record, s1) /\
    return_book clock' (BorrowRecord.record_id record) s1 = (Ok record', s2) /\
    Dict.get book_id (_books s2) = Some book' /\
    Book.available_copies book' = Book.available_copies book /\
    _books s2 = _books s.
Proof.
  intros R Gu Gb P. apply reachable_wf in R.
  pose proof (get_book_ok _ _ _ (wf_copies s R) Gb) as Hb.
  pose proof (get_keyed _ _ _ _ (wf_books s R) Gb) as Hk.
  rewrite borrow_book_eq, Gu, Gb.
  destruct (Z.gtb_spec (Book.available_copies book) 0) as [_|N]; [|lia].
  cbv zeta. do 5 eexists. split; [reflexivity|].
  assert (E : forall x y : Book.t,
             Dict.set book_id x (Dict.set book_id y (_books s)) = 
             Dict.set book_id x (_books s))
    by (intros; apply DictFacts.set_set).
  rewrite return_book_eq. cbn [_records _books BorrowRecord.record_id].
  rewrite DictFacts.get_set_eq. cbn [BorrowRecord.return_date BorrowRecord.book_id].
  rewrite Hk, DictFacts.get_set_eq, E.
  cbn [Book.available_copies Book.total_copies Book.set_available_copies].
  destruct (Z.geb_spec (Book.available_copies book - 1) (Book.total_copies book)) as [G|_].
  { unfold book_ok in Hb. lia. }
  rewrite (unborrow_copy book), (DictFacts.set_same _ _ _ Gb).
  split; [reflexivity|]. cbn [_books].
  split; [exact Gb|]. split; reflexivity.
Qed.

Lemma borrow_then_return_restores_witness :
  exists record s1 record' s2 book',
    borrow_book 739000 1 100 (run alice_1984 init) = (Ok record, s1) /\
    return_book 739003 (BorrowRecord.record_id record) s1 = (Ok record', s2) /\
    Dict.get 100 (_books s2) = Some book' /\
    Book.available_copies book' = 2 /\
    _books s2 = _books (run alice_1984 init).
Proof.
  apply (borrow_then_return_restores 739000 739003 1 100
           (User.mk 1 "Alice" "a@x.com")
           (Book.mk 100 "1984" "Orwell" "Fiction" 2 2)
           (run alice_1984 init)).
  - apply reachable_run. apply reachable_init.
  - reflexivity.
  - reflexivity.
  - simpl. lia.
Defined.

(** C5. [borrow_book] checks, in this order: the user (absent: "User with id
    .. not found."), the book (absent: "Book with id .. not found."), the
    copies ([available_copies = 0]: "Book '..' is not available.", and the
    state, so the records and the counter, is as before).  Otherwise the
    book has one copy less, the record with [record_id] the counter's value,
    [borrow_date] today and [due_date] 14 days later is stored as a new
    record and returned, and the counter is one more. *)
Theorem borrow_book_checks clock user_id book_id s :
  reachable s ->
  match Dict.get user_id (_users s), Dict.get book_id (_books s) with
  | None, _ =>
      borrow_book clock user_id book_id s = (Err (UserNotFound user_id), s) /\
      kind (UserNotFound user_id) = NotFound
  | Some _, None =>
      borrow_book clock user_id book_id s = (Err (BookNotFound book_id), s) /\
      kind (BookNotFound book_id) = NotFound
  | Some _, Some book =>
      if Book.available_copies book =? 0 then
        borrow_book clock user_id book_id s = (Err (NotAvailable (Book.title book)), s) /\
        kind (NotAvailable (Book.title book)) = Unavailable
      else
        let record :=
          BorrowRecord.mk (_next_record_id s) user_id book_id
            clock (clock + 14) None in
        borrow_book clock user_id book_id s =
        (Ok record,
         mkLibrary (_users s)
           (Dict.set book_id
              (Book.set_available_copies (Book.available_copies book - 1) book)
              (_books s))
           (_records s ++ [(_next_record_id s, record)])
           (_next_record_id s + 1))
  end.
Proof.
  intros R. apply reachable_wf in R. rewrite borrow_book_eq.
  destruct (Dict.get user_id (_users s)) as [user|] eqn:Gu; [|now split].
  destruct (Dict.get book_id (_books s)) as [book|] eqn:Gb; [|now split].
  pose proof (get_book_ok _ _ _ (wf_copies s R) Gb) as Hb.
  pose proof (get_keyed _ _ _ _ (wf_books s R) Gb) as Hk.
  pose proof (get_keyed _ _ _ _ (wf_users s R) Gu) as Hu.
  unfold book_ok in Hb.
  destruct (Z.eqb_spec (Book.available_copies book) 0) as [Z0|NZ];
    destruct (Z.gtb_spec (Book.available_copies book) 0); try lia.
  - now split.
  - cbv zeta. rewrite Hu, Hk.
    rewrite (DictFacts.set_new _ _ _ (next_id_fresh s R)). reflexivity.
Qed.

Lemma borrow_book_checks_witness :
  borrow_book 739000 1 100 (run alice_1984 init) =
  (Ok (BorrowRecord.mk 1 1 100 739000 739014 None),
   mkLibrary [(1, User.mk 1 "Alice" "a@x.com")]
     [(100, Book.mk 100 "1984" "Orwell" "Fiction" 2 1)]
     [(1, BorrowRecord.mk 1 1 100 739000 739014 None)]
     2).
Proof.
  apply (borrow_book_checks 739000 1 100 (run alice_1984 init)).
  apply reachable_run. apply reachable_init.
Defined.

(** ** Editing a book *)

(** C6. [update_book] on an id that is not in the catalog raises "Book with
    id .. not found.".  Otherwise a text that was not supplied stays, and so
    do both counts when [total_copies] was not supplied.  When it was, with
    [borrowed = total_copies - available_copies] of the book before the
    call: below [borrowed] the call raises "total_copies less than borrowed
    count."; from [borrowed] on it goes through, with [total_copies] the new
    value and [available_copies] the old one plus the difference of the
    totals, and [0] if that is negative. *)
Theorem update_book_fields book_id title author category total_copies s :
  match Dict.get book_id (_books s) with
  | None =>
      update_book book_id title author category total_copies s =
        (Err (BookNotFound book_id), s) /\
      kind (BookNotFound book_id) = NotFound
  | Some old =>
      let out := update_book book_id title author category total_copies s in
      exists new,
        Dict.get book_id (_books (snd out)) = Some new /\
        (title = None -> Book.title new = Book.title old) /\
        (author = None -> Book.author new = Book.author old) /\
        (category = None -> Book.category new = Book.category old) /\
        match total_copies with
        | None =>
            fst out = Ok new /\
            Book.total_copies new = Book.total_copies old /\
            Book.available_copies new = Book.available_copies old
        | Some n =>
            let borrowed := Book.total_copies old - Book.available_copies old in
            if n <? borrowed then
              fst out = Err LessThanBorrowed /\
              kind LessThanBorrowed = InvalidArgument
            else
              fst out = Ok new /\
              Book.total_copies new = n /\
              Book.available_copies new =
                Z.max 0 (Book.available_copies old + (n - Book.total_copies old))
        end
  end.
Proof.
  rewrite update_book_eq.
  destruct (Dict.get book_id (_books s)) as [old|] eqn:G; [|now split].
  cbv zeta. destruct total_copies as [n|].
  - destruct (n <? Book.total_copies old - Book.available_copies old) eqn:L.
    + exists (edited title author category old). simpl.
      rewrite DictFacts.get_set_eq.
      repeat split; intros ->; reflexivity.
    + exists (resized n (edited title author category old)). simpl.
      rewrite DictFacts.get_set_eq.
      repeat split; intros ->; reflexivity.
  - exists (edited title author category old). simpl.
    rewrite DictFacts.get_set_eq.
    repeat split; intros ->; reflexivity.
Qed.

Lemma update_book_fields_witness :
  exists new,
    Dict.get 100 (_books (snd (update_book 100 None (Some "G. Orwell") None
                                 (Some 5) (run both_lent init)))) = Some new /\
    Book.title new = "1984" /\ Book.category new = "Fiction" /\
    Book.total_copies new = 5 /\ Book.available_copies new = 3.
Proof.
  destruct (update_book_fields 100 None (Some "G. Orwell") None (Some 5)
              (run both_lent init)) as (new & G & T & _ & C & _ & N & A).
  exists new. repeat split; auto.
Defined.

(** ** The record-id counter *)

(** What a call does to the counter, and which id it gives out. *)
Lemma counter_step clock o s :
  let out := call clock o s in
  _next_record_id (snd out) =
    (if is_borrow o && succeeded (fst out)
     then _next_record_id s + 1 else _next_record_id s) /\
  issued_by o (fst out) =
    (if is_borrow o && succeeded (fst out) then [_next_record_id s] else []).
Proof.
  cbv zeta. destruct o; cbn [call is_borrow andb];
    try (rewrite snd_fmap; unfold fmap, bind, ret).
  - rewrite add_user_eq. now destruct (Dict.get user_id (_users s)).
  - rewrite get_user_eq. now destruct (Dict.get user_id (_users s)).
  - rewrite add_book_eq. destruct (Dict.get book_id (_books s)); auto.
    now destruct (total_copies <=? 0).
  - rewrite update_book_eq. destruct (Dict.get book_id (_books s)) as [b|]; auto.
    cbv zeta. destruct total_copies as [n|]; auto.
    now destruct (n <? Book.total_copies b - Book.available_copies b).
  - rewrite delete_book_eq. now destruct (Dict.get book_id (_books s)).
  - now split.
  - now split.
  - now split.
  - rewrite borrow_book_eq. destruct (Dict.get user_id (_users s)); auto.
    destruct (Dict.get book_id (_books s)) as [b|]; auto.
    now destruct (Book.available_copies b >? 0).
  - rewrite return_book_eq.
    destruct (Dict.get record_id (_records s)) as [r|]; auto.
    destruct (BorrowRecord.return_date r); auto.
    destruct (Dict.get (BorrowRecord.book_id r) (_books s)) as [b|]; auto.
    now destruct (Book.available_copies b >=? Book.total_copies b).
  - unfold list_user_borrowed_books. unfold bind at 1 3. rewrite get_user_eq.
    now destruct (Dict.get user_id (_users s)).
  - now split.
Qed.

Lemma issued_run calls s :
  let n := List.length (issued calls s) in
  issued calls s = ids_from (_next_record_id s) n /\
  _next_record_id (run calls s) = _next_record_id s + Z.of_nat n.
Proof.
  cbv zeta. revert s. induction calls as [|[clock o] calls IH]; intros s.
  - simpl. split; [reflexivity | lia].
  - cbn [issued run]. destruct (counter_step clock o s) as [C I].
    destruct (IH (snd (call clock o s))) as [IH1 IH2].
    rewrite I, IH2, C. rewrite length_app.
    destruct (is_borrow o && succeeded (fst (call clock o s))).
    + cbn [List.length Nat.add app ids_from]. split.
      * f_equal. rewrite IH1 at 1. now rewrite C.
      * lia.
    + cbn [List.length Nat.add app]. split.
      * rewrite IH1 at 1. now rewrite C.
      * lia.
Qed.

Lemma keyed_values_keys {V} (id : V -> Z) (d : Dict.t V) :
  keyed_by id d -> map id (Dict.values d) = Dict.keys d.
Proof.
  unfold keyed_by, Dict.values, Dict.keys. induction 1 as [|kv d H F IH]; simpl.
  - reflexivity.
  - now rewrite H, IH.
Qed.

(** C7. The counter starts at [1]; a call adds one to it when it is a
    [borrow_book] that goes through, and leaves it alone otherwise (so it
    never goes down, and a failed call does not move it).  Along any run of
    calls from the fresh instance, deletions included, the ids given out are
    [1], [2], ... in this order: no id is given twice, each is above the ones
    before it, and they are the ids of the stored records. *)
Theorem record_id_counter :
  _next_record_id init = 1 /\
  (forall clock o s,
     let out := call clock o s in
     _next_record_id (snd out) =
       if is_borrow o && succeeded (fst out)
       then _next_record_id s + 1 else _next_record_id s) /\
  (forall calls,
     let n := List.length (issued calls init) in
     issued calls init = ids_from 1 n /\
     NoDup (issued calls init) /\
     StronglySorted Z.lt (issued calls init) /\
     _next_record_id (run calls init) = 1 + Z.of_nat n /\
     map BorrowRecord.record_id (Dict.values (_records (run calls init))) =
       issued calls init).
Proof.
  split; [reflexivity|]. split.
  - intros clock o s. apply counter_step.
  - intros calls. cbv zeta.
    destruct (issued_run calls init) as [I N]. cbn [init _next_record_id] in I, N.
    remember (List.length (issued calls init)) as n eqn:Hn. clear Hn.
    split; [exact I|].
    split; [rewrite I; apply ids_from_NoDup|].
    split; [rewrite I; apply ids_from_sorted|].
    split; [exact N|].
    assert (W : wf (run calls init))
      by (apply reachable_wf, reachable_run, reachable_init).
    rewrite (keyed_values_keys _ _ (wf_records _ W)), (wf_ids _ W), N, I.
    unfold first_ids. f_equal. lia.
Qed.

(** ** Searching and listing *)




(** ** Overdue records *)

(** C9. With [reference] the date passed to [is_overdue], today's date when
    none is passed: a record whose [return_date] is set is not overdue,
    whatever [reference] is; an open record is overdue exactly when
    [reference > due_date]; and [list_overdue_records] gives, without
    touching the state, the stored records that are overdue, and only
    those. *)
Theorem overdue_spec clock today :
  let reference := or_today clock today in
  (forall r d, BorrowRecord.return_date r = Some d ->
     BorrowRecord.is_overdue clock today r = false) /\
  (forall r, BorrowRecord.return_date r = None ->
     (BorrowRecord.is_overdue clock today r = true <->
      reference > BorrowRecord.due_date r)) /\
  (forall s, exists records,
     list_overdue_records clock today s = (Ok records, s) /\
     records = filter (BorrowRecord.is_overdue clock today) (Dict.values (_records s)) /\
     forall r, In r records <->
       In r (Dict.values (_records s)) /\
       BorrowRecord.is_overdue clock today r = true).
Proof.
  cbv zeta. split; [|split].
  - intros r d D. unfold BorrowRecord.is_overdue. now rewrite D.
  - intros r D. unfold BorrowRecord.is_overdue. rewrite D.
    destruct (Z.gtb_spec (or_today clock today) (BorrowRecord.due_date r));
      split; intros; try lia; congruence.
  - intros s. eexists. split; [reflexivity|]. split; [reflexivity|].
    intros r. apply filter_In.
Qed.

Lemma overdue_spec_witness :
  BorrowRecord.is_overdue 0 (Some 800000)
    (BorrowRecord.mk 1 1 100 739000 739014 (Some 739005)) = false /\
  BorrowRecord.is_overdue 0 (Some 739015)
    (BorrowRecord.mk 2 1 100 739001 739015 None) = false /\
  BorrowRecord.is_overdue 0 (Some 739016)
    (BorrowRecord.mk 2 1 100 739001 739015 None) = true.
Proof.
  split; [|split].
  - apply (proj1 (overdue_spec 0 (Some 800000)) _ 739005). reflexivity.
  - destruct (BorrowRecord.is_overdue 0 (Some 739015)
                (BorrowRecord.mk 2 1 100 739001 739015 None)) eqn:E; [|reflexivity].
    apply (proj1 (proj2 (overdue_spec 0 (Some 739015)))) in E; [|reflexivity].
    vm_compute in E. discriminate.
  - apply (proj1 (proj2 (overdue_spec 0 (Some 739016)))); reflexivity.
Defined.

(** ** Returning after the book was replaced *)

Lemma record_id_below_next k r s :
  wf s -> Dict.get k (_records s) = Some r -> k <> _next_record_id s.
Proof.
  intros W G E. subst k. rewrite (next_id_fresh s W) in G. discriminate.
Qed.

(** C10. [return_book] looks the book up under [record.book_id] in the catalog
    as it is at the return.  Let an open record refer to a book that is then
    deleted, and let another book with [n] copies be added under the same id.
    The id now leads to the new book.  [return_book] on the old record does
    not raise "Book no longer exists in catalog.": at once it runs into the
    check of [return_copy] on the new book (all [n] copies are there); in
    any state that holds the open record and some book under its
    [book_id], it goes through exactly when that book has
    [available_copies < total_copies], adds one to that book's
    [available_copies] and closes the record; so after somebody borrowed a
    copy of the new book, the new book's [available_copies] goes from
    [n - 1] to [n] and the old record is closed. *)
Theorem return_book_resolves_current_book
    clock clock' record_id r old title author category n user_id user s :
  reachable s ->
  Dict.get record_id (_records s) = Some r ->
  BorrowRecord.return_date r = None ->
  Dict.get (BorrowRecord.book_id r) (_books s) = Some old ->
  Dict.get user_id (_users s) = Some user ->
  0 < n ->
  let i := BorrowRecord.book_id r in
  let new := Book.mk i title author category n n in
  let s1 := snd (delete_book i s) in
  let s2 := snd (add_book i title author category n s1) in
  let s3 := snd (borrow_book clock' user_id i s2) in
  let closed := BorrowRecord.mark_returned clock None r in
  Dict.get i (_books s2) = Some new /\
  return_book clock record_id s2 = (Err (AllCopiesInLibrary title), s2) /\
  kind (AllCopiesInLibrary title) = InvariantViolation /\
  (forall s' b,
     Dict.get record_id (_records s') = Some r ->
     Dict.get i (_books s') = Some b ->
     return_book clock record_id s' =
       if Book.available_copies b <? Book.total_copies b
       then (Ok closed,
             mkLibrary (_users s')
               (Dict.set i
                  (Book.set_available_copies (Book.available_copies b + 1) b)
                  (_books s'))
               (Dict.set record_id closed (_records s'))
               (_next_record_id s'))
       else (Err (AllCopiesInLibrary (Book.title b)), s')) /\
  Dict.get i (_books s3) = Some (Book.set_available_copies (n - 1) new) /\
  exists s4,
    return_book clock record_id s3 = (Ok closed, s4) /\
    Dict.get i (_books s4) = Some new /\
    Dict.get record_id (_records s4) = Some closed.
Proof.
  intros R Gr Open Gb Gu Pn. apply reachable_wf in R. cbv zeta.
  pose proof (record_id_below_next _ _ _ R Gr) as Below.
  rewrite delete_book_eq, Gb. cbn [snd].
  rewrite add_book_eq. cbn [with_books _books].
  rewrite (DictFacts.get_del_eq _ _ (wf_nodup s R)).
  destruct (Z.leb_spec n 0) as [|_]; [lia|]. cbv zeta. cbn [snd].
  set (new := Book.mk (BorrowRecord.book_id r) title author category n n).
  set (d := Dict.del (BorrowRecord.book_id r) (_books s)).
  set (s2 := with_books (Dict.set (BorrowRecord.book_id r) new d) (with_books d s)).
  assert (U2 : _users s2 = _users s) by reflexivity.
  assert (B2 : _books s2 = Dict.set (BorrowRecord.book_id r) new d) by reflexivity.
  assert (R2 : _records s2 = _records s) by reflexivity.
  assert (N2 : _next_record_id s2 = _next_record_id s) by reflexivity.
  clearbody s2.
  assert (Full : (Book.available_copies new >=? Book.total_copies new) = true).
  { subst new. cbn [Book.available_copies Book.total_copies].
    destruct (Z.geb_spec n n); [reflexivity|lia]. }
  assert (Avail : (Book.available_copies new >? 0) = true).
  { subst new. cbn [Book.available_copies].
    destruct (Z.gtb_spec n 0); [reflexivity|lia]. }
  set (lent := Book.set_available_copies (Book.available_copies new - 1) new).
  assert (Lent : (Book.available_copies lent >=? Book.total_copies lent) = false).
  { subst lent new. cbn [Book.available_copies Book.total_copies Book.set_available_copies].
    destruct (Z.geb_spec (n - 1) n); [lia|reflexivity]. }
  assert (Back : Book.set_available_copies (Book.available_copies lent + 1) lent = new).
  { subst lent new. unfold Book.set_available_copies. simpl. f_equal. lia. }
  split; [rewrite B2; apply DictFacts.get_set_eq|].
  split.
  { rewrite return_book_eq, R2, Gr, Open, B2, DictFacts.get_set_eq, Full.
    reflexivity. }
  split; [reflexivity|].
  split.
  { intros s' b Gr' Gb'. rewrite return_book_eq, Gr', Open, Gb'.
    destruct (Z.geb_spec (Book.available_copies b) (Book.total_copies b));
      destruct (Z.ltb_spec (Book.available_copies b) (Book.total_copies b));
      try lia; reflexivity. }
  rewrite borrow_book_eq, U2, Gu, B2, DictFacts.get_set_eq, Avail.
  cbv zeta. cbn [snd _books]. rewrite DictFacts.set_set. fold lent.
  split; [apply DictFacts.get_set_eq|].
  rewrite return_book_eq. cbn [_records _books _users _next_record_id].
  rewrite N2, R2, (DictFacts.get_set_ne _ _ _ _ (not_eq_sym Below)), Gr, Open.
  rewrite DictFacts.get_set_eq, Lent.
  cbv zeta. eexists. split; [reflexivity|]. cbn [_books _records].
  rewrite DictFacts.set_set, !DictFacts.get_set_eq, Back. split; reflexivity.
Qed.

Lemma return_book_resolves_current_book_witness :
  let s2 := run replaced init in
  let s3 := snd (borrow_book 739008 2 100 s2) in
  Dict.get 100 (_books s2) =
    Some (Book.mk 100 "Brave New World" "Huxley" "Fiction" 3 3) /\
  return_book 739009 2 s2 = (Err (AllCopiesInLibrary "Brave New World"), s2) /\
  exists s4,
    return_book 739009 2 s3 =
      (Ok (BorrowRecord.mk 2 1 100 739001 739015 (Some 739009)), s4) /\
    Dict.get 100 (_books s4) =
      Some (Book.mk 100 "Brave New World" "Huxley" "Fiction" 3 3).
Proof.
  destruct (return_book_resolves_current_book 739009 739008 2
              (BorrowRecord.mk 2 1 100 739001 739015 None)
              (Book.mk 100 "1984" "Orwell" "Fiction" 2 1)
              "Brave New World" "Huxley" "Fiction" 3
              2 (User.mk 2 "Bob" "b@x.com")
              (run (first_returned ++ [(739006, AddUser 2 "Bob" "b@x.com")]) init))
    as (G & F & _ & _ & _ & s4 & Rt & G4 & _).
  - apply reachable_run. apply reachable_init.
  - reflexivity.
  - reflexivity.
  - reflexivity.
  - reflexivity.
  - reflexivity.
  - cbv zeta. split; [exact G|]. split; [exact F|]. exists s4. split; [exact Rt|exact G4].
Defined.

(** * Further properties of [library.py] *)

(** ** The writes of a call *)

Lemma call_step clock o s : step clock o s (snd (call clock o s)).
Proof.
  destruct o; cbn [call]; rewrite snd_fmap; try apply step_same.
  - rewrite add_user_eq. destruct (Dict.get user_id (_users s)) eqn:G.
    + apply step_same.
    + now apply step_add_user.
  - rewrite get_user_eq. destruct (Dict.get user_id (_users s)); apply step_same.
  - rewrite add_book_eq. destruct (Dict.get book_id (_books s)) eqn:G;
      [apply step_same|].
    destruct (Z.leb_spec total_copies 0); [apply step_same|].
    now apply step_add_book.
  - rewrite update_book_eq. destruct (Dict.get book_id (_books s)) as [b|] eqn:G;
      [|apply step_same].
    cbv zeta. destruct total_copies as [n|]; [|now apply step_edit].
    destruct (Z.ltb_spec n (Book.total_copies b - Book.available_copies b)).
    + now apply step_edit.
    + now apply step_resize.
  - rewrite delete_book_eq. destruct (Dict.get book_id (_books s)) eqn:G;
      [|apply step_same].
    eapply step_delete; eauto.
  - rewrite borrow_book_eq.
    destruct (Dict.get user_id (_users s)) eqn:Gu; [|apply step_same].
    destruct (Dict.get book_id (_books s)) as [b|] eqn:Gb; [|apply step_same].
    destruct (Z.gtb_spec (Book.available_copies b) 0); [|apply step_same].
    apply step_borrow; auto; lia.
  - rewrite return_book_eq.
    destruct (Dict.get record_id (_records s)) as [r|] eqn:Gr; [|apply step_same].
    destruct (BorrowRecord.return_date r) eqn:O; [apply step_same|].
    destruct (Dict.get (BorrowRecord.book_id r) (_books s)) as [b|] eqn:Gb;
      [|apply step_same].
    destruct (Z.geb_spec (Book.available_copies b) (Book.total_copies b));
      [apply step_same|].
    apply step_return; auto; lia.
  - unfold list_user_borrowed_books. unfold bind at 1. rewrite get_user_eq.
    destruct (Dict.get user_id (_users s)); apply step_same.
Qed.

Module DictMore.
Section DictMore.
Context {V : Type}.
Implicit Types (d : Dict.t V) (k : Z) (v : V).

Lemma Forall_values_set (P : V -> Prop) k v d :
  Forall P (Dict.values d) -> P v -> Forall P (Dict.values (Dict.set k v d)).
Proof.
  rewrite !DictFacts.Forall_values. intros F H.
  now apply DictFacts.Forall_set.
Qed.

Lemma contains_set k k' v d :
  Dict.contains k d = true -> Dict.contains k (Dict.set k' v d) = true.
Proof.
  unfold Dict.contains. destruct (Z.eq_dec k' k) as [->|N].
  - now rewrite DictFacts.get_set_eq.
  - now rewrite DictFacts.get_set_ne.
Qed.

Lemma In_values_set k v d x :
  In x (Dict.values (Dict.set k v d)) -> x = v \/ In x (Dict.values d).
Proof.
  induction d as [|[k0 v0] d IH]; simpl.
  - intuition.
  - destruct (k =? k0); simpl; intuition.
Qed.

(** Deleting a key that is there takes out its entry and keeps the order of
    the others. *)
Lemma del_split k v d :
  Dict.get k d = Some v ->
  exists d1 d2, d = d1 ++ (k, v) :: d2 /\ Dict.del k d = d1 ++ d2 /\
                Dict.get k d1 = None.
Proof.
  induction d as [|[k0 v0] d IH]; simpl; [discriminate|].
  destruct (k =? k0) eqn:E.
  - apply Z.eqb_eq in E. subst k0. intros [= ->]. now exists [], d.
  - intros G. destruct (IH G) as (d1 & d2 & -> & D & N).
    exists ((k0, v0) :: d1), d2. simpl. rewrite D, E. auto.
Qed.

Lemma get_set k k' v d :
  Dict.get k' (Dict.set k v d) = if k' =? k then Some v else Dict.get k' d.
Proof.
  destruct (Z.eqb_spec k' k) as [->|N].
  - apply DictFacts.get_set_eq.
  - apply DictFacts.get_set_ne. congruence.
Qed.

End DictMore.
End DictMore.

(** ** Users *)

(** X1. [add_user] on a registered id raises "User with id .. already
    exists." and overwrites nothing.  On a new id it registers the user:
    [get_user] of that id then gives the user just made, every other id
    resolves as before, the user is last in the order of registration, and
    books, records and counter are untouched. *)
Theorem add_user_then_get_user user_id name email s :
  match Dict.get user_id (_users s) with
  | Some _ =>
      add_user user_id name email s = (Err (UserExists user_id), s) /\
      kind (UserExists user_id) = DuplicateKey
  | None =>
      let user := User.mk user_id name email in
      exists s',
        add_user user_id name email s = (Ok user, s') /\
        get_user user_id s' = (Ok user, s') /\
        (forall k, k <> user_id ->
           Dict.get k (_users s') = Dict.get k (_users s)) /\
        Dict.values (_users s') = Dict.values (_users s) ++ [user] /\
        _books s' = _books s /\ _records s' = _records s /\
        _next_record_id s' = _next_record_id s
  end.
Proof.
  rewrite add_user_eq. destruct (Dict.get user_id (_users s)) eqn:G; [now split|].
  cbv zeta. eexists. split; [reflexivity|].
  rewrite get_user_eq. cbn [_users _books _records _next_record_id].
  rewrite DictFacts.get_set_eq. split; [reflexivity|]. split.
  - intros k N. apply DictFacts.get_set_ne. congruence.
  - rewrite (DictFacts.set_new _ _ _ G). unfold Dict.values.
    rewrite map_app. auto.
Qed.

Lemma add_user_then_get_user_witness :
  exists s',
    add_user 2 "Bob" "b@x.com" (run alice_1984 init) =
      (Ok (User.mk 2 "Bob" "b@x.com"), s') /\
    get_user 2 s' = (Ok (User.mk 2 "Bob" "b@x.com"), s') /\
    Dict.get 1 (_users s') = Some (User.mk 1 "Alice" "a@x.com").
Proof.
  destruct (add_user_then_get_user 2 "Bob" "b@x.com" (run alice_1984 init))
    as (s' & A & G & O & _).
  exists s'. split; [exact A|]. split; [exact G|].
  rewrite (O 1); [reflexivity | discriminate].
Defined.

(** X2. No call removes or changes a registered user: whoever [get_user]
    finds before a call, it finds after it, with the same name and email. *)
Theorem users_are_kept clock o s k u :
  Dict.get k (_users s) = Some u ->
  get_user k (snd (call clock o s)) = (Ok u, snd (call clock o s)).
Proof.
  intros G. rewrite get_user_eq.
  pose proof (call_step clock o s) as St.
  remember (snd (call clock o s)) as s' eqn:E. clear E.
  destruct St; cbn [_users with_books]; try (now rewrite G).
  rewrite DictFacts.get_set_ne, G; [reflexivity|]. congruence.
Qed.

Lemma users_are_kept_witness :
  let s' := snd (call 739002 (AddUser 1 "Mallory" "m@x.com") (run both_lent init)) in
  get_user 1 s' = (Ok (User.mk 1 "Alice" "a@x.com"), s').
Proof.
  apply (users_are_kept 739002 (AddUser 1 "Mallory" "m@x.com")
           (run both_lent init) 1 (User.mk 1 "Alice" "a@x.com")).
  reflexivity.
Defined.

(** ** The catalog *)

(** X3. [add_book] looks at the id before it looks at the count: on an id
    that is in the catalog it raises "Book with id .. already exists.",
    whatever [total_copies] is, and the book that is there stays; on a new
    id with [total_copies <= 0] it raises "total_copies must be positive.";
    otherwise the book is in the catalog with all its copies available, last
    in the listing, and nothing else has changed. *)
Theorem add_book_outcome book_id title author category total_copies s :
  match Dict.get book_id (_books s) with
  | Some _ =>
      add_book book_id title author category total_copies s =
        (Err (BookExists book_id), s) /\
      kind (BookExists book_id) = DuplicateKey
  | None =>
      if total_copies <=? 0 then
        add_book book_id title author category total_copies s =
          (Err NonPositiveCopies, s) /\
        kind NonPositiveCopies = InvalidArgument
      else
        let book :=
          Book.mk book_id title author category total_copies total_copies in
        exists s',
          add_book book_id title author category total_copies s = (Ok book, s') /\
          Dict.get book_id (_books s') = Some book /\
          (forall k, k <> book_id ->
             Dict.get k (_books s') = Dict.get k (_books s)) /\
          list_all_books s' = (Ok (Dict.values (_books s) ++ [book]), s') /\
          _users s' = _users s /\ _records s' = _records s /\
          _next_record_id s' = _next_record_id s
  end.
Proof.
  rewrite add_book_eq. destruct (Dict.get book_id (_books s)) eqn:G; [now split|].
  destruct (total_copies <=? 0); [now split|].
  cbv zeta. eexists. split; [reflexivity|].
  cbn [with_books _users _books _records _next_record_id].
  split; [apply DictFacts.get_set_eq|]. split.
  - intros k N. apply DictFacts.get_set_ne. congruence.
  - split; [|auto]. unfold list_all_books. unfold_m. cbn [_books].
    rewrite (DictFacts.set_new _ _ _ G). unfold Dict.values.
    now rewrite map_app.
Qed.

Lemma add_book_outcome_witness :
  add_book 100 "Animal Farm" "Orwell" "Fiction" 0 (run alice_1984 init) =
    (Err (BookExists 100), run alice_1984 init) /\
  add_book 101 "Animal Farm" "Orwell" "Fiction" 0 (run alice_1984 init) =
    (Err NonPositiveCopies, run alice_1984 init) /\
  exists s',
    add_book 101 "Animal Farm" "Orwell" "Fiction" 4 (run alice_1984 init) =
      (Ok (Book.mk 101 "Animal Farm" "Orwell" "Fiction" 4 4), s') /\
    Dict.get 100 (_books s') = Some (Book.mk 100 "1984" "Orwell" "Fiction" 2 2).
Proof.
  split; [|split].
  - apply (add_book_outcome 100 "Animal Farm" "Orwell" "Fiction" 0
             (run alice_1984 init)).
  - apply (add_book_outcome 101 "Animal Farm" "Orwell" "Fiction" 0
             (run alice_1984 init)).
  - destruct (add_book_outcome 101 "Animal Farm" "Orwell" "Fiction" 4
                (run alice_1984 init)) as (s' & A & _ & O & _).
    exists s'. split; [exact A|]. rewrite (O 100); [reflexivity|discriminate].
Defined.

(** X4. [delete_book] on an id that is not in the catalog raises "Book with
    id .. not found.".  On one that is, the book is taken out of the listing,
    the other books keep their order and their data, and users, records and
    counter are untouched, open records for the book included; the id is then
    unknown to [delete_book] and [update_book]. *)
Theorem delete_book_outcome book_id s :
  reachable s ->
  match Dict.get book_id (_books s) with
  | None =>
      delete_book book_id s = (Err (BookNotFound book_id), s) /\
      kind (BookNotFound book_id) = NotFound
  | Some old =>
      exists s' before after,
        delete_book book_id s = (Ok tt, s') /\
        Dict.get book_id (_books s') = None /\
        (forall k, k <> book_id ->
           Dict.get k (_books s') = Dict.get k (_books s)) /\
        Dict.values (_books s) = before ++ old :: after /\
        list_all_books s' = (Ok (before ++ after), s') /\
        delete_book book_id s' = (Err (BookNotFound book_id), s') /\
        (forall t a c n,
           update_book book_id t a c n s' = (Err (BookNotFound book_id), s')) /\
        _users s' = _users s /\ _records s' = _records s /\
        _next_record_id s' = _next_record_id s
  end.
Proof.
  intros R. apply reachable_wf in R. rewrite delete_book_eq.
  destruct (Dict.get book_id (_books s)) as [old|] eqn:G; [|now split].
  destruct (DictMore.del_split _ _ _ G) as (d1 & d2 & E & D & _).
  pose proof (DictFacts.get_del_eq book_id _ (wf_nodup s R)) as N.
  exists (with_books (Dict.del book_id (_books s)) s),
         (Dict.values d1), (Dict.values d2).
  unfold with_books. cbn [_users _books _records _next_record_id].
  split; [reflexivity|]. split; [exact N|]. split.
  { intros k Ne. apply DictFacts.get_del_ne. congruence. }
  split. { rewrite E. unfold Dict.values. now rewrite map_app. }
  split. { unfold list_all_books. unfold_m. cbn [_books]. rewrite D.
           unfold Dict.values. now rewrite map_app. }
  split. { rewrite delete_book_eq. cbn [_books]. now rewrite N. }
  split; [|auto].
  intros t a c n. rewrite update_book_eq. cbn [_books]. now rewrite N.
Qed.

Lemma delete_book_outcome_witness :
  exists s',
    delete_book 100 (run both_lent init) = (Ok tt, s') /\
    Dict.get 100 (_books s') = None /\
    _records s' = _records (run both_lent init) /\
    delete_book 100 s' = (Err (BookNotFound 100), s').
Proof.
  destruct (delete_book_outcome 100 (run both_lent init))
    as (s' & l1 & l2 & D & N & _ & _ & _ & D' & _ & _ & Rc & _).
  - apply reachable_run, reachable_init.
  - exists s'. auto.
Defined.

(** ** Records *)

Lemma record_ok_users (users users' : Dict.t User.t) r :
  (forall k, Dict.contains k users = true -> Dict.contains k users' = true) ->
  record_ok users r -> record_ok users' r.
Proof. intros H [U D]. split; auto. Qed.

Lemma records_ok_step clock o s s' :
  wf s -> step clock o s s' ->
  Forall (record_ok (_users s)) (Dict.values (_records s)) ->
  Forall (record_ok (_users s')) (Dict.values (_records s')).
Proof.
  intros W St F. destruct St; cbn [with_books _users _records]; auto.
  - eapply Forall_impl; [|exact F]. intros r. apply record_ok_users.
    intros k. apply DictMore.contains_set.
  - apply DictMore.Forall_values_set; auto. split; cbn; [|reflexivity].
    rewrite (get_keyed _ _ _ _ (wf_users s W) H).
    apply DictFacts.contains_get. eauto.
  - apply DictMore.Forall_values_set; auto.
    rewrite Forall_forall in F.
    apply (F r). eapply DictFacts.get_In_values; eauto.
Qed.

Lemma reachable_records_ok s :
  reachable s -> Forall (record_ok (_users s)) (Dict.values (_records s)).
Proof.
  induction 1 as [|clock o s R IH]; [constructor|].
  eapply records_ok_step; eauto using call_step, reachable_wf.
Qed.

(** X5. A book can be deleted while a loan of it is open, and the record
    outlives it: [return_book] on the record then raises "Book no longer
    exists in catalog." and changes nothing, so the record stays open and
    [list_user_borrowed_books] of its user still lists it. *)
Theorem return_after_delete clock record_id r old s :
  reachable s ->
  Dict.get record_id (_records s) = Some r ->
  BorrowRecord.return_date r = None ->
  Dict.get (BorrowRecord.book_id r) (_books s) = Some old ->
  exists s' records,
    delete_book (BorrowRecord.book_id r) s = (Ok tt, s') /\
    return_book clock record_id s' = (Err BookNoLongerExists, s') /\
    kind BookNoLongerExists = NotFound /\
    Dict.get record_id (_records s') = Some r /\
    list_user_borrowed_books (BorrowRecord.user_id r) s' = (Ok records, s') /\
    In r records.
Proof.
  intros R Gr Open Gb.
  pose proof (reachable_records_ok s R) as Rok.
  apply reachable_wf in R.
  rewrite delete_book_eq, Gb.
  exists (with_books (Dict.del (BorrowRecord.book_id r) (_books s)) s).
  rewrite return_book_eq. unfold list_user_borrowed_books.
  unfold bind at 1. rewrite get_user_eq.
  unfold with_books. cbn [_users _books _records _next_record_id].
  rewrite Gr, Open, (DictFacts.get_del_eq _ _ (wf_nodup s R)).
  rewrite Forall_forall in Rok.
  destruct (Rok r (DictFacts.get_In_values _ _ _ Gr)) as [U _].
  apply DictFacts.contains_get in U. destruct U as [user U]. rewrite U.
  eexists. split; [reflexivity|]. split; [reflexivity|]. split; [reflexivity|].
  split; [reflexivity|]. split; [reflexivity|].
  apply filter_In. split.
  - eapply DictFacts.get_In_values; eauto.
  - unfold open_for. now rewrite Z.eqb_refl, Open.
Qed.

Lemma return_after_delete_witness :
  exists s' records,
    delete_book 100 (run both_lent init) = (Ok tt, s') /\
    return_book 739010 2 s' = (Err BookNoLongerExists, s') /\
    list_user_borrowed_books 1 s' = (Ok records, s') /\
    In (BorrowRecord.mk 2 1 100 739001 739015 None) records.
Proof.
  destruct (return_after_delete 739010 2
              (BorrowRecord.mk 2 1 100 739001 739015 None)
              (Book.mk 100 "1984" "Orwell" "Fiction" 2 0)
              (run both_lent init))
    as (s' & records & D & Rt & _ & _ & L & I).
  - apply reachable_run, reachable_init.
  - reflexivity.
  - reflexivity.
  - reflexivity.
  - exists s', records. auto.
Defined.

Lemma In_get {V} k (v : V) (d : Dict.t V) :
  NoDup (Dict.keys d) -> In (k, v) d -> Dict.get k d = Some v.
Proof.
  induction d as [|[k0 v0] d IH]; simpl; [tauto|].
  intros N I. inversion N as [|? ? N1 N2]; subst.
  destruct I as [[= -> ->]|I].
  - now rewrite Z.eqb_refl.
  - destruct (Z.eqb_spec k k0) as [->|_]; [|auto].
    exfalso. apply N1. change k0 with (fst (k0, v)). now apply in_map.
Qed.

Lemma set_split {V} k (v : V) (d : Dict.t V) :
  Dict.get k d = Some v ->
  exists d1 d2, d = d1 ++ (k, v) :: d2 /\
    forall v', Dict.set k v' d = d1 ++ (k, v') :: d2.
Proof.
  induction d as [|[k0 v0] d IH]; simpl; [discriminate|].
  destruct (k =? k0) eqn:E.
  - apply Z.eqb_eq in E. subst k0. intros [= ->]. now exists [], d.
  - intros G. destruct (IH G) as (d1 & d2 & -> & S).
    exists ((k0, v0) :: d1), d2. split; [reflexivity|].
    intros v'. simpl. now rewrite S.
Qed.

(** ** Listings *)

(** X6. [list_available_books] gives the books of the catalog that have a
    copy available, and these are the books a registered user can borrow:
    [borrow_book] goes through for an id exactly when a book with that id is
    in the list. *)
Theorem available_books_are_borrowable clock user_id user s :
  reachable s ->
  Dict.get user_id (_users s) = Some user ->
  exists listed,
    list_available_books s = (Ok listed, s) /\
    (forall b, In b listed <->
       In b (Dict.values (_books s)) /\ 0 < Book.available_copies b) /\
    (forall book_id,
       succeeded (fst (borrow_book clock user_id book_id s)) = true <->
       exists b, In b listed /\ Book.book_id b = book_id).
Proof.
  intros R Gu. apply reachable_wf in R.
  eexists. split; [reflexivity|].
  assert (L : forall b, In b (filter Book.is_available (Dict.values (_books s))) <->
                In b (Dict.values (_books s)) /\ 0 < Book.available_copies b).
  { intros b. rewrite filter_In. unfold Book.is_available.
    destruct (Z.gtb_spec (Book.available_copies b) 0); intuition (try lia; congruence). }
  split; [exact L|].
  intros book_id. rewrite borrow_book_eq, Gu. split.
  - destruct (Dict.get book_id (_books s)) as [b|] eqn:Gb; [|discriminate].
    destruct (Z.gtb_spec (Book.available_copies b) 0); [|discriminate].
    intros _. exists b. rewrite L. split; [split; [|lia]|].
    + eapply DictFacts.get_In_values; eauto.
    + eapply get_keyed; eauto using wf_books.
  - intros (b & I & E). apply L in I. destruct I as [I P].
    unfold Dict.values in I. apply in_map_iff in I.
    destruct I as ([k b'] & Eb & I). simpl in Eb. subst b'.
    pose proof (wf_books s R) as K. unfold keyed_by in K.
    rewrite Forall_forall in K. pose proof (K _ I) as Ek. simpl in Ek.
    rewrite Ek in E. subst k.
    rewrite (In_get _ _ _ (wf_nodup s R) I).
    destruct (Z.gtb_spec (Book.available_copies b) 0); [reflexivity|lia].
Qed.

Lemma available_books_are_borrowable_witness :
  exists listed,
    list_available_books (run first_returned init) =
      (Ok listed, run first_returned init) /\
    (succeeded (fst (borrow_book 739006 1 100 (run first_returned init))) = true <->
     exists b, In b listed /\ Book.book_id b = 100).
Proof.
  destruct (available_books_are_borrowable 739006 1 (User.mk 1 "Alice" "a@x.com")
              (run first_returned init)) as (listed & L & _ & B).
  - apply reachable_run, reachable_init.
  - reflexivity.
  - exists listed. split; [exact L | apply B].
Defined.

(** X7. [list_user_borrowed_books] raises "User with id .. not found." for
    an id that is not registered.  A [borrow_book] that goes through puts its
    record at the end of the borrower's list and leaves the lists of the
    other users as they were. *)
Theorem borrowed_books_after_borrow clock user_id book_id record s s' :
  reachable s ->
  borrow_book clock user_id book_id s = (Ok record, s') ->
  exists before,
    list_user_borrowed_books user_id s = (Ok before, s) /\
    list_user_borrowed_books user_id s' = (Ok (before ++ [record]), s') /\
    (forall other, other <> user_id ->
       fst (list_user_borrowed_books other s') =
       fst (list_user_borrowed_books other s)) /\
    (forall unknown, Dict.get unknown (_users s) = None ->
       list_user_borrowed_books unknown s' = (Err (UserNotFound unknown), s')).
Proof.
  intros R. apply reachable_wf in R. rewrite borrow_book_eq.
  destruct (Dict.get user_id (_users s)) as [user|] eqn:Gu; [|discriminate].
  destruct (Dict.get book_id (_books s)) as [b|] eqn:Gb; [|discriminate].
  destruct (Book.available_copies b >? 0); [|discriminate].
  cbv zeta. intros [= <- <-].
  pose proof (get_keyed _ _ _ _ (wf_users s R) Gu) as Eu.
  rewrite (DictFacts.set_new _ _ _ (next_id_fresh s R)).
  assert (L : forall u x,
            Dict.get u (_users s) = Some x ->
            forall s0, _users s0 = _users s ->
            list_user_borrowed_books u s0 =
              (Ok (filter (open_for u) (Dict.values (_records s0))), s0)).
  { intros u x G s0 E. unfold list_user_borrowed_books. unfold bind at 1.
    rewrite get_user_eq, E, G. reflexivity. }
  eexists. split; [apply (L _ _ Gu); reflexivity|].
  split; [|split].
  - rewrite (L _ _ Gu) by reflexivity. cbn [_records].
    unfold Dict.values. rewrite map_app, filter_app. cbn [map snd filter].
    unfold open_for at 2. cbn [BorrowRecord.user_id BorrowRecord.return_date].
    rewrite Eu, Z.eqb_refl. reflexivity.
  - intros other N. unfold list_user_borrowed_books. unfold bind at 1 3.
    rewrite !get_user_eq. cbn [_users].
    destruct (Dict.get other (_users s)); [|reflexivity].
    unfold_m. cbn [fst _records]. f_equal.
    unfold Dict.values. rewrite map_app, filter_app. cbn [map snd filter].
    unfold open_for at 2. cbn [BorrowRecord.user_id].
    rewrite Eu. destruct (Z.eqb_spec user_id other); [congruence|].
    cbn [andb]. now rewrite app_nil_r.
  - intros unknown N. unfold list_user_borrowed_books. unfold bind at 1.
    rewrite get_user_eq. cbn [_users]. now rewrite N.
Qed.

Lemma borrowed_books_after_borrow_witness :
  exists s' before,
    list_user_borrowed_books 1 (run first_returned init) =
      (Ok before, run first_returned init) /\
    list_user_borrowed_books 1 s' =
      (Ok (before ++ [BorrowRecord.mk 3 1 100 739006 739020 None]), s').
Proof.
  destruct (borrowed_books_after_borrow 739006 1 100
              (BorrowRecord.mk 3 1 100 739006 739020 None)
              (run first_returned init)
              (snd (borrow_book 739006 1 100 (run first_returned init))))
    as (before & B & A & _).
  - apply reachable_run, reachable_init.
  - reflexivity.
  - eexists _, before. split; [exact B | exact A].
Defined.

(** X8. A [return_book] that goes through closes the record once and for
    all: the record it gives is the stored one with today as
    [return_date] and nothing else changed, it is never overdue again, a
    second [return_book] on its id raises "Book already returned for this
    record.", it leaves its user's list of borrowed books, where the other
    records keep their order, and no other record is touched. *)
Theorem return_book_closes clock record_id closed s s' :
  reachable s ->
  return_book clock record_id s = (Ok closed, s') ->
  exists r l1 l2,
    Dict.get record_id (_records s) = Some r /\
    BorrowRecord.return_date r = None /\
    closed =
      BorrowRecord.mk (BorrowRecord.record_id r) (BorrowRecord.user_id r)
        (BorrowRecord.book_id r) (BorrowRecord.borrow_date r)
        (BorrowRecord.due_date r) (Some clock) /\
    Dict.get record_id (_records s') = Some closed /\
    (forall c today, BorrowRecord.is_overdue c today closed = false) /\
    (forall c, return_book c record_id s' = (Err BookAlreadyReturned, s')) /\
    list_user_borrowed_books (BorrowRecord.user_id r) s = (Ok (l1 ++ r :: l2), s) /\
    list_user_borrowed_books (BorrowRecord.user_id r) s' = (Ok (l1 ++ l2), s') /\
    (forall k, k <> record_id ->
       Dict.get k (_records s') = Dict.get k (_records s)).
Proof.
  intros R. pose proof (reachable_records_ok s R) as Rok.
  apply reachable_wf in R. rewrite return_book_eq.
  destruct (Dict.get record_id (_records s)) as [r|] eqn:Gr; [|discriminate].
  destruct (BorrowRecord.return_date r) eqn:Open; [discriminate|].
  destruct (Dict.get (BorrowRecord.book_id r) (_books s)) as [b|]; [|discriminate].
  destruct (Book.available_copies b >=? Book.total_copies b); [discriminate|].
  cbv zeta. intros [= <- <-].
  rewrite Forall_forall in Rok.
  destruct (Rok r (DictFacts.get_In_values _ _ _ Gr)) as [U _].
  apply DictFacts.contains_get in U. destruct U as [user U].
  destruct (set_split _ _ _ Gr) as (d1 & d2 & E & S).
  exists r, (filter (open_for (BorrowRecord.user_id r)) (Dict.values d1)),
         (filter (open_for (BorrowRecord.user_id r)) (Dict.values d2)).
  assert (Or : open_for (BorrowRecord.user_id r) r = true)
    by (unfold open_for; now rewrite Z.eqb_refl, Open).
  split; [reflexivity|]. split; [exact Open|]. split; [reflexivity|].
  cbn [_records]. split; [apply DictFacts.get_set_eq|].
  split; [reflexivity|]. split.
  { intros c. rewrite return_book_eq. cbn [_records].
    now rewrite DictFacts.get_set_eq. }
  unfold list_user_borrowed_books. unfold bind at 1 3. rewrite !get_user_eq.
  cbn [_users]. rewrite U. unfold_m. cbn [_records].
  split; [|split].
  - rewrite E. unfold Dict.values. rewrite map_app, filter_app.
    cbn [map snd filter]. now rewrite Or.
  - rewrite S. unfold Dict.values. rewrite map_app, filter_app.
    cbn [map snd filter]. unfold open_for at 2.
    cbn [BorrowRecord.mark_returned BorrowRecord.return_date BorrowRecord.user_id].
    now rewrite Z.eqb_refl.
  - intros k N. apply DictFacts.get_set_ne. congruence.
Qed.

Lemma return_book_closes_witness :
  exists s' l1 l2,
    return_book 739005 1 (run both_lent init) =
      (Ok (BorrowRecord.mk 1 1 100 739000 739014 (Some 739005)), s') /\
    return_book 739006 1 s' = (Err BookAlreadyReturned, s') /\
    list_user_borrowed_books 1 s' = (Ok (l1 ++ l2), s').
Proof.
  destruct (return_book_closes 739005 1
              (BorrowRecord.mk 1 1 100 739000 739014 (Some 739005))
              (run both_lent init)
              (snd (return_book 739005 1 (run both_lent init))))
    as (r & l1 & l2 & Gr & _ & _ & _ & _ & Again & _ & L & _).
  - apply reachable_run, reachable_init.
  - reflexivity.
  - exists (snd (return_book 739005 1 (run both_lent init))), l1, l2.
    split; [reflexivity|]. split; [apply Again|].
    vm_compute in Gr. injection Gr as <-. exact L.
Defined.

(** X9. The record of a [borrow_book] that went through shows up in
    [list_overdue_records] exactly for reference dates more than 14 days
    after the day of the borrow (the reference date is the one passed, and
    today's when none is). *)
Theorem new_loan_overdue_after_loan_days
    clock clock' today user_id book_id record s s' :
  reachable s ->
  borrow_book clock user_id book_id s = (Ok record, s') ->
  exists overdue,
    list_overdue_records clock' today s' = (Ok overdue, s') /\
    (In record overdue <-> or_today clock' today > clock + 14).
Proof.
  intros R. apply reachable_wf in R. rewrite borrow_book_eq.
  destruct (Dict.get user_id (_users s)) as [user|]; [|discriminate].
  destruct (Dict.get book_id (_books s)) as [b|]; [|discriminate].
  destruct (Book.available_copies b >? 0); [|discriminate].
  cbv zeta. intros [= <- <-].
  eexists. split; [reflexivity|]. cbn [_records].
  rewrite filter_In. unfold BorrowRecord.is_overdue at 1.
  cbn [BorrowRecord.return_date BorrowRecord.due_date]. unfold LOAN_DAYS.
  destruct (Z.gtb_spec (or_today clock' today) (clock + 14)); split;
    try lia; try (intros [_ ?]; congruence).
  intros _. split; [|reflexivity].
  eapply DictFacts.get_In_values. apply DictFacts.get_set_eq.
Qed.

Lemma new_loan_overdue_after_loan_days_witness :
  exists overdue,
    list_overdue_records 739000 (Some 739015)
      (snd (borrow_book 739000 1 100 (run alice_1984 init))) =
      (Ok overdue, snd (borrow_book 739000 1 100 (run alice_1984 init))) /\
    (In (BorrowRecord.mk 1 1 100 739000 739014 None) overdue <-> 739015 > 739000 + 14).
Proof.
  apply (new_loan_overdue_after_loan_days 739000 739000 (Some 739015) 1 100
           (BorrowRecord.mk 1 1 100 739000 739014 None)
           (run alice_1984 init)
           (snd (borrow_book 739000 1 100 (run alice_1984 init)))).
  - apply reachable_run, reachable_init.
  - reflexivity.
Defined.

(** ** Copies out and open loans *)

Lemma on_loan_split k (d1 d2 : Dict.t BorrowRecord.t) x :
  on_loan k (d1 ++ x :: d2) =
  on_loan k d1 + (if lends k (snd x) then 1 else 0) + on_loan k d2.
Proof.
  unfold on_loan, Dict.values. rewrite map_app, filter_app, length_app.
  cbn [map filter]. destruct (lends k (snd x)); cbn [List.length]; lia.
Qed.

Lemma on_loan_new k (d : Dict.t BorrowRecord.t) key r :
  on_loan k (d ++ [(key, r)]) = on_loan k d + (if lends k r then 1 else 0).
Proof. rewrite on_loan_split. cbn. lia. Qed.

Lemma on_loan_set k rid r r' (d : Dict.t BorrowRecord.t) :
  Dict.get rid d = Some r ->
  on_loan k (Dict.set rid r' d) =
  on_loan k d - (if lends k r then 1 else 0) + (if lends k r' then 1 else 0).
Proof.
  intros G. destruct (set_split _ _ _ G) as (d1 & d2 & E & S).
  rewrite S, E, !on_loan_split. cbn [snd]. lia.
Qed.

Lemma on_loan_open rid r (d : Dict.t BorrowRecord.t) :
  Dict.get rid d = Some r -> BorrowRecord.return_date r = None ->
  1 <= on_loan (BorrowRecord.book_id r) d.
Proof.
  intros G O. destruct (set_split _ _ _ G) as (d1 & d2 & E & _).
  rewrite E, on_loan_split. cbn [snd]. unfold lends, is_open.
  rewrite Z.eqb_refl, O. cbn [andb]. unfold on_loan. lia.
Qed.

Lemma balanced_init : balanced init.
Proof. split; [discriminate | reflexivity]. Qed.

Lemma balanced_books (s : Library) (i : Z) (b b' : Book.t) records :
  balanced s ->
  Dict.get i (_books s) = Some b ->
  (forall k, k <> i -> on_loan k records = on_loan k (_records s)) ->
  Book.total_copies b' - Book.available_copies b' = on_loan i records ->
  balanced (mkLibrary (_users s) (Dict.set i b' (_books s)) records
              (_next_record_id s)) /\
  forall next,
    balanced (mkLibrary (_users s) (Dict.set i b' (_books s)) records next).
Proof.
  intros [B1 B2] G Same Mine.
  assert (K : forall next,
    balanced (mkLibrary (_users s) (Dict.set i b' (_books s)) records next)).
  { intros next. split; cbn [_books _records]; intros k.
    - intros b0. rewrite DictMore.get_set. destruct (Z.eqb_spec k i) as [->|N].
      + now intros [= <-].
      + intros G0. rewrite Same by exact N. now apply B1.
    - rewrite DictMore.get_set. destruct (Z.eqb_spec k i) as [->|N];
        [discriminate|].
      intros G0. rewrite Same by exact N. now apply B2. }
  split; auto.
Qed.

Lemma balanced_step clock o s s' :
  wf s -> balanced s -> step clock o s s' -> is_delete o = false -> balanced s'.
Proof.
  intros W B St ND. pose proof B as [B1 B2].
  destruct St; try discriminate; auto.
  - unfold with_books. split; cbn [_books _records]; intros k.
    + intros b0. rewrite DictMore.get_set. destruct (Z.eqb_spec k i) as [->|N].
      * intros [= <-]. cbn. rewrite (B2 _ H). lia.
      * apply B1.
    + rewrite DictMore.get_set. destruct (Z.eqb_spec k i); [discriminate|].
      apply B2.
  - unfold with_books. apply (balanced_books s i b); auto.
    rewrite <- (B1 _ _ H). reflexivity.
  - unfold with_books. apply (balanced_books s i b); auto.
    rewrite <- (B1 _ _ H). unfold resized, edited. cbn. lia.
  - pose proof (get_keyed _ _ _ _ (wf_books s W) H0) as Ek.
    rewrite (DictFacts.set_new _ _ _ (next_id_fresh s W)).
    apply (balanced_books s i b).
    + exact B.
    + exact H0.
    + intros k N. rewrite on_loan_new. unfold lends.
      cbn [BorrowRecord.book_id]. rewrite Ek.
      destruct (Z.eqb_spec i k); [congruence|]. cbn. lia.
    + rewrite on_loan_new. unfold lends, is_open.
      cbn [BorrowRecord.book_id BorrowRecord.return_date]. rewrite Ek, Z.eqb_refl.
      cbn. rewrite <- (B1 _ _ H0). lia.
  - apply (balanced_books s (BorrowRecord.book_id r) b).
    + exact B.
    + exact H1.
    + intros k N. rewrite (on_loan_set _ _ _ _ _ H). unfold lends, is_open.
      cbn [BorrowRecord.mark_returned BorrowRecord.book_id BorrowRecord.return_date].
      destruct (Z.eqb_spec (BorrowRecord.book_id r) k); [congruence|]. cbn. lia.
    + rewrite (on_loan_set _ _ _ _ _ H). unfold lends, is_open.
      cbn [BorrowRecord.mark_returned BorrowRecord.book_id BorrowRecord.return_date].
      rewrite Z.eqb_refl, H0. cbn. rewrite <- (B1 _ _ H1). lia.
Qed.

Lemma balanced_run calls s :
  delete_free calls = true -> reachable s -> balanced s ->
  balanced (run calls s).
Proof.
  revert s. induction calls as [|[clock o] calls IH]; intros s D R B; [exact B|].
  cbn [run]. cbn [delete_free forallb snd] in D.
  apply andb_true_iff in D. destruct D as [D1 D2].
  apply IH; auto.
  - now constructor.
  - eapply balanced_step; eauto using call_step, reachable_wf.
    now apply negb_true_iff.
Qed.

(** X10. As long as no book is deleted, the copies of a book that are out
    are its open loans: in the state after any run of calls without
    [delete_book], every book has
    [total_copies - available_copies] open records. *)
Theorem copies_out_are_open_loans calls book_id b :
  delete_free calls = true ->
  Dict.get book_id (_books (run calls init)) = Some b ->
  Book.total_copies b - Book.available_copies b =
  on_loan book_id (_records (run calls init)).
Proof.
  intros D G.
  destruct (balanced_run calls init D reachable_init balanced_init) as [B1 _].
  now apply B1.
Qed.

Lemma copies_out_are_open_loans_witness :
  Book.total_copies (Book.mk 100 "1984" "Orwell" "Fiction" 2 1)
  - Book.available_copies (Book.mk 100 "1984" "Orwell" "Fiction" 2 1) =
  on_loan 100 (_records (run first_returned init)).
Proof.
  apply (copies_out_are_open_loans first_returned 100); reflexivity.
Defined.

(** X11. As long as no book is deleted, an open record can always be closed:
    [return_book] on it goes through, whatever else was done in between. *)
Theorem open_loans_can_be_returned calls clock record_id r :
  delete_free calls = true ->
  Dict.get record_id (_records (run calls init)) = Some r ->
  BorrowRecord.return_date r = None ->
  exists s',
    return_book clock record_id (run calls init) =
      (Ok (BorrowRecord.mark_returned clock None r), s').
Proof.
  intros D G O.
  destruct (balanced_run calls init D reachable_init balanced_init) as [B1 B2].
  pose proof (on_loan_open _ _ _ G O) as L.
  rewrite return_book_eq, G, O.
  destruct (Dict.get (BorrowRecord.book_id r) (_books (run calls init)))
    as [b|] eqn:Gb.
  - specialize (B1 _ _ Gb).
    destruct (Z.geb_spec (Book.available_copies b) (Book.total_copies b)); [lia|].
    eexists. reflexivity.
  - specialize (B2 _ Gb). lia.
Qed.

Lemma open_loans_can_be_returned_witness :
  exists s',
    return_book 739030 2 (run first_returned init) =
      (Ok (BorrowRecord.mk 2 1 100 739001 739015 (Some 739030)), s').
Proof.
  apply (open_loans_can_be_returned first_returned 739030 2
           (BorrowRecord.mk 2 1 100 739001 739015 None)); reflexivity.
Defined.

(** X12. The checks "No available copies for .." of [Book.borrow_copy] and
    "All copies of .. are already in library." of [Book.return_copy] guard
    against what does not happen: [borrow_book] never fails with the first,
    in any state, and in a state reached without deleting a book no call
    fails with either. *)
Theorem defensive_checks_unreachable :
  (forall clock user_id book_id s e,
     fst (borrow_book clock user_id book_id s) = Err e ->
     kind e <> InvariantViolation) /\
  (forall calls clock o e,
     delete_free calls = true ->
     fst (call clock o (run calls init)) = Err e ->
     kind e <> InvariantViolation).
Proof.
  assert (Borrow : forall clock user_id book_id s e,
            fst (borrow_book clock user_id book_id s) = Err e ->
            kind e <> InvariantViolation).
  { intros clock user_id book_id s e. rewrite borrow_book_eq.
    destruct (Dict.get user_id (_users s));
      [|cbn; intros [= <-]; discriminate].
    destruct (Dict.get book_id (_books s)) as [b|];
      [|cbn; intros [= <-]; discriminate].
    destruct (Book.available_copies b >? 0); cbn; intros [= <-]; discriminate. }
  split; [exact Borrow|].
  intros calls clock o e D. set (s := run calls init).
  destruct (balanced_run calls init D reachable_init balanced_init) as [B1 B2].
  fold s in B1, B2.
  destruct o; cbn [call]; unfold fmap, bind, ret.
  - rewrite add_user_eq. destruct (Dict.get user_id (_users s)); cbn;
      intros [= <-]; discriminate.
  - rewrite get_user_eq. destruct (Dict.get user_id (_users s)); cbn;
      intros [= <-]; discriminate.
  - rewrite add_book_eq. destruct (Dict.get book_id (_books s));
      [|destruct (total_copies <=? 0)]; cbn; intros [= <-]; discriminate.
  - rewrite update_book_eq. destruct (Dict.get book_id (_books s)) as [b|];
      [|cbn; intros [= <-]; discriminate].
    cbv zeta. destruct total_copies as [n|]; [|discriminate].
    destruct (n <? Book.total_copies b - Book.available_copies b); cbn;
      intros [= <-]; discriminate.
  - rewrite delete_book_eq. destruct (Dict.get book_id (_books s)); cbn;
      intros [= <-]; discriminate.
  - discriminate.
  - discriminate.
  - discriminate.
  - intros E. apply (Borrow clock user_id book_id s).
    destruct (borrow_book clock user_id book_id s) as [[x|e'] s'];
      [discriminate|]. cbn in E |- *. congruence.
  - rewrite return_book_eq.
    destruct (Dict.get record_id (_records s)) as [r|] eqn:G;
      [|cbn; intros [= <-]; discriminate].
    destruct (BorrowRecord.return_date r) eqn:O;
      [cbn; intros [= <-]; discriminate|].
    pose proof (on_loan_open _ _ _ G O) as L.
    destruct (Dict.get (BorrowRecord.book_id r) (_books s)) as [b|] eqn:Gb;
      [|cbn; intros [= <-]; discriminate].
    specialize (B1 _ _ Gb).
    destruct (Z.geb_spec (Book.available_copies b) (Book.total_copies b)); [lia|].
    discriminate.
  - unfold list_user_borrowed_books. unfold bind at 1. rewrite get_user_eq.
    destruct (Dict.get user_id (_users s)); cbn; intros [= <-]; discriminate.
  - discriminate.
Qed.

Lemma defensive_checks_unreachable_witness :
  kind (NotAvailable "1984") <> InvariantViolation.
Proof.
  apply (proj2 defensive_checks_unreachable both_lent 739002 (BorrowBook 1 100)
           (NotAvailable "1984")); reflexivity.
Defined.

(** ** Editing the number of copies *)

(** X13. An [update_book] that sets [total_copies] and goes through moves
    [available_copies] by exactly the change of the total: the copies that
    are out stay out, the result is not negative and the cut at [0] never
    applies. *)
Theorem update_book_keeps_copies_out book_id title author category n old new s s' :
  Dict.get book_id (_books s) = Some old ->
  update_book book_id title author category (Some n) s = (Ok new, s') ->
  Dict.get book_id (_books s') = Some new /\
  Book.total_copies new = n /\
  Book.available_copies new =
    Book.available_copies old + (n - Book.total_copies old) /\
  0 <= Book.available_copies new /\
  Book.total_copies new - Book.available_copies new =
    Book.total_copies old - Book.available_copies old.
Proof.
  intros G. rewrite update_book_eq, G. cbv zeta.
  destruct (Z.ltb_spec n (Book.total_copies old - Book.available_copies old));
    [discriminate|].
  intros [= <- <-]. unfold with_books. cbn [_books].
  split; [apply DictFacts.get_set_eq|]. unfold resized, edited. cbn. lia.
Qed.

Lemma update_book_keeps_copies_out_witness :
  exists new s',
    update_book 100 None None None (Some 7) (run first_returned init) = (Ok new, s') /\
    Book.total_copies new = 7 /\ Book.available_copies new = 6.
Proof.
  destruct (update_book_keeps_copies_out 100 None None None 7
              (Book.mk 100 "1984" "Orwell" "Fiction" 2 1)
              (Book.mk 100 "1984" "Orwell" "Fiction" 7 6)
              (run first_returned init)
              (snd (update_book 100 None None None (Some 7) (run first_returned init))))
    as (_ & T & A & _).
  - reflexivity.
  - reflexivity.
  - exists (Book.mk 100 "1984" "Orwell" "Fiction" 7 6),
      (snd (update_book 100 None None None (Some 7) (run first_returned init))).
    split; [reflexivity|]. split; [exact T | reflexivity].
Defined.

(** X14. Where [add_book] wants [total_copies > 0], [update_book] only wants
    the new total not to be below the copies that are out: in a reachable
    state it accepts a total exactly when it is at least that many, so it
    refuses every negative total, and it accepts [0] for a book of which no
    copy is out, which leaves a book without copies in the catalog. *)
Theorem update_book_accepts_total book_id title author category n old s :
  reachable s ->
  Dict.get book_id (_books s) = Some old ->
  let out := Book.total_copies old - Book.available_copies old in
  (succeeded (fst (update_book book_id title author category (Some n) s)) = true
   <-> out <= n) /\
  (n < 0 ->
   fst (update_book book_id title author category (Some n) s) = Err LessThanBorrowed) /\
  (out = 0 ->
   exists new s',
     update_book book_id title author category (Some 0) s = (Ok new, s') /\
     Dict.get book_id (_books s') = Some new /\
     Book.total_copies new = 0 /\ Book.available_copies new = 0).
Proof.
  intros R G. apply reachable_wf in R.
  pose proof (get_book_ok _ _ _ (wf_copies s R) G) as Hb. unfold book_ok in Hb.
  cbv zeta. rewrite !update_book_eq, G. cbv zeta. split; [|split].
  - destruct (Z.ltb_spec n (Book.total_copies old - Book.available_copies old));
      cbn; split; intros; try lia; congruence.
  - intros N.
    destruct (Z.ltb_spec n (Book.total_copies old - Book.available_copies old));
      [reflexivity|lia].
  - intros Z0.
    destruct (Z.ltb_spec 0 (Book.total_copies old - Book.available_copies old));
      [lia|].
    eexists _, _. split; [reflexivity|]. unfold with_books. cbn [_books].
    split; [apply DictFacts.get_set_eq|]. unfold resized, edited. cbn. lia.
Qed.

Lemma update_book_accepts_total_witness :
  (succeeded (fst (update_book 100 None None None (Some 1) (run first_returned init))) = true
   <-> 2 - 1 <= 1) /\
  exists new s',
    update_book 100 None None None (Some 0) (run alice_1984 init) = (Ok new, s') /\
    Book.total_copies new = 0.
Proof.
  split.
  - apply (update_book_accepts_total 100 None None None 1
             (Book.mk 100 "1984" "Orwell" "Fiction" 2 1) (run first_returned init)).
    + apply reachable_run, reachable_init.
    + reflexivity.
  - destruct (update_book_accepts_total 100 None None None 0
                (Book.mk 100 "1984" "Orwell" "Fiction" 2 2) (run alice_1984 init))
      as (_ & _ & Z0).
    + apply reachable_run, reachable_init.
    + reflexivity.
    + destruct (Z0 eq_refl) as (new & s' & U & _ & T & _).
      exists new, s'. split; [exact U | exact T].
Defined.

(** ** The life of a record *)

(** X15. Records are never deleted, and all a call can change in a stored
    record is its [return_date], by [return_book] on that record while it is
    open: user, book, the dates of borrowing and due stay for ever, and a
    closed record does not change at all. *)
Theorem records_are_kept clock o s k r :
  reachable s ->
  Dict.get k (_records s) = Some r ->
  exists r',
    Dict.get k (_records (snd (call clock o s))) = Some r' /\
    loan_of r' = loan_of r /\
    (is_open r = false -> r' = r) /\
    (r' <> r ->
     o = ReturnBook k /\ is_open r = true /\
     BorrowRecord.return_date r' = Some clock).
Proof.
  intros R G. apply reachable_wf in R.
  pose proof (record_id_below_next _ _ _ R G) as Below.
  pose proof (call_step clock o s) as St.
  remember (snd (call clock o s)) as s' eqn:E. clear E.
  destruct St; unfold with_books; cbn [_records];
    try (exists r; split; [exact G|]; split; [reflexivity|];
         split; [reflexivity | congruence]).
  - exists r. rewrite DictFacts.get_set_ne by congruence.
    split; [exact G|]. split; [reflexivity|]. split; [reflexivity | congruence].
  - destruct (Z.eq_dec rid k) as [->|N].
    + rewrite G in H. injection H as <-.
      exists (BorrowRecord.mark_returned clock None r).
      rewrite DictFacts.get_set_eq. split; [reflexivity|].
      split; [reflexivity|]. unfold is_open. rewrite H0.
      split; [discriminate|]. intros _. auto.
    + exists r. rewrite DictFacts.get_set_ne by exact N.
      split; [exact G|]. split; [reflexivity|]. split; [reflexivity | congruence].
Qed.

Lemma records_are_kept_witness :
  exists r',
    Dict.get 1 (_records (snd (call 739040 (DeleteBook 100) (run first_returned init))))
      = Some r' /\
    loan_of r' = (1, 1, 100, 739000, 739014).
Proof.
  destruct (records_are_kept 739040 (DeleteBook 100) (run first_returned init) 1
              (BorrowRecord.mk 1 1 100 739000 739014 (Some 739005)))
    as (r' & G & L & _).
  - apply reachable_run, reachable_init.
  - reflexivity.
  - exists r'. split; [exact G | exact L].
Defined.

(** X16. In every reachable state a stored record sits under its own
    [record_id], which is below the counter, belongs to a registered user,
    and is due 14 days after it was borrowed. *)
Theorem stored_record_facts s k r :
  reachable s ->
  Dict.get k (_records s) = Some r ->
  BorrowRecord.record_id r = k /\
  1 <= k < _next_record_id s /\
  (exists user,
     get_user (BorrowRecord.user_id r) s = (Ok user, s) /\
     User.user_id user = BorrowRecord.user_id r) /\
  BorrowRecord.due_date r = BorrowRecord.borrow_date r + 14.
Proof.
  intros R G. pose proof (reachable_records_ok s R) as Rok.
  apply reachable_wf in R.
  rewrite Forall_forall in Rok.
  destruct (Rok r (DictFacts.get_In_values _ _ _ G)) as [U Due].
  apply DictFacts.contains_get in U. destruct U as [user U].
  split; [eapply get_keyed; eauto using wf_records|]. split; [|split].
  - assert (I : In k (Dict.keys (_records s))).
    { apply DictFacts.get_In in G. unfold Dict.keys.
      change k with (fst (k, r)). now apply in_map. }
    rewrite (wf_ids s R), first_ids_bound in I.
    pose proof (wf_next s R). lia.
  - exists user. rewrite get_user_eq, U. split; [reflexivity|].
    eapply get_keyed; eauto using wf_users.
  - exact Due.
Qed.

Lemma stored_record_facts_witness :
  BorrowRecord.record_id (BorrowRecord.mk 2 1 100 739001 739015 None) = 2 /\
  1 <= 2 < _next_record_id (run replaced init) /\
  (exists user,
     get_user 1 (run replaced init) = (Ok user, run replaced init) /\
     User.user_id user = 1) /\
  739015 = 739001 + 14.
Proof.
  apply (stored_record_facts (run replaced init) 2
           (BorrowRecord.mk 2 1 100 739001 739015 None)).
  - apply reachable_run, reachable_init.
  - reflexivity.
Defined.

Lemma dated_later now now' r : now <= now' -> dated now r -> dated now' r.
Proof.
  unfold dated. intros L [B Rt]. split; [lia|].
  destruct (BorrowRecord.return_date r); [lia | exact I].
Qed.

Lemma dated_step clock o s s' now :
  now <= clock -> step clock o s s' ->
  Forall (dated now) (Dict.values (_records s)) ->
  Forall (dated clock) (Dict.values (_records s')).
Proof.
  intros L St F.
  assert (F' : Forall (dated clock) (Dict.values (_records s))).
  { eapply Forall_impl; [|exact F]. intros r. now apply dated_later. }
  destruct St; unfold with_books; cbn [_records]; auto.
  - apply DictMore.Forall_values_set; auto. split; cbn; [lia | exact I].
  - apply DictMore.Forall_values_set; auto.
    rewrite Forall_forall in F'.
    destruct (F' r (DictFacts.get_In_values _ _ _ H)) as [B _].
    split; cbn; lia.
Qed.

Lemma dated_run calls s now :
  in_order now calls ->
  Forall (dated now) (Dict.values (_records s)) ->
  exists now', Forall (dated now') (Dict.values (_records (run calls s))).
Proof.
  revert s now. induction calls as [|[clock o] calls IH]; intros s now O F.
  - now exists now.
  - cbn [in_order] in O. destruct O as [L O]. cbn [run].
    apply (IH _ clock O). eapply dated_step; eauto using call_step.
Qed.

(** X17. When the clock does not go back between the calls, no stored
    record has a [return_date] before its [borrow_date]. *)
Theorem return_not_before_borrow start calls r :
  in_order start calls ->
  In r (Dict.values (_records (run calls init))) ->
  match BorrowRecord.return_date r with
  | None => True
  | Some d => BorrowRecord.borrow_date r <= d
  end.
Proof.
  intros O I.
  destruct (dated_run calls init start O) as [now F]; [constructor|].
  rewrite Forall_forall in F. destruct (F r I) as [_ D].
  destruct (BorrowRecord.return_date r); [lia | exact Logic.I].
Qed.

Lemma return_not_before_borrow_witness : 739000 <= 739005.
Proof.
  apply (return_not_before_borrow 739000 first_returned
           (BorrowRecord.mk 1 1 100 739000 739014 (Some 739005))).
  - cbn. lia.
  - left. reflexivity.
Defined.

(** ** Failed calls *)

(** X18. A call that raises leaves users, records and counter as they were,
    and every book in the catalog with its id and both its counts.  Apart
    from [update_book] it leaves the whole state as it was; a failed
    [update_book] can only have changed the texts of the one book. *)
Theorem failed_call_effect clock o s e :
  fst (call clock o s) = Err e ->
  let s' := snd (call clock o s) in
  _users s' = _users s /\ _records s' = _records s /\
  _next_record_id s' = _next_record_id s /\
  (is_update o = false -> s' = s) /\
  (forall k b,
     Dict.get k (_books s) = Some b ->
     exists b',
       Dict.get k (_books s') = Some b' /\
       Book.book_id b' = Book.book_id b /\
       Book.total_copies b' = Book.total_copies b /\
       Book.available_copies b' = Book.available_copies b /\
       ((forall t a c n, o <> UpdateBook k t a c n) -> b' = b)).
Proof.
  intros F. cbv zeta.
  assert (Same : snd (call clock o s) = s ->
    _users (snd (call clock o s)) = _users s /\
    _records (snd (call clock o s)) = _records s /\
    _next_record_id (snd (call clock o s)) = _next_record_id s /\
    (is_update o = false -> snd (call clock o s) = s) /\
    (forall k b,
       Dict.get k (_books s) = Some b ->
       exists b',
         Dict.get k (_books (snd (call clock o s))) = Some b' /\
         Book.book_id b' = Book.book_id b /\
         Book.total_copies b' = Book.total_copies b /\
         Book.available_copies b' = Book.available_copies b /\
         ((forall t a c n, o <> UpdateBook k t a c n) -> b' = b))).
  { intros ->. repeat split; auto. intros k b G. exists b. auto. }
  destruct (is_update o) eqn:U.
  - destruct o; try discriminate. clear U Same.
    revert F. cbn [call]. rewrite snd_fmap. unfold fmap, bind, ret.
    rewrite update_book_eq.
    destruct (Dict.get book_id (_books s)) as [b0|] eqn:G0.
    + cbv zeta. destruct total_copies as [n|]; [|discriminate].
      destruct (n <? Book.total_copies b0 - Book.available_copies b0);
        [|discriminate].
      intros _. unfold with_books. cbn [snd _users _books _records _next_record_id].
      repeat split; try discriminate.
      intros k b G. rewrite DictMore.get_set.
      destruct (Z.eqb_spec k book_id) as [->|N].
      * rewrite G0 in G. injection G as <-. eexists. split; [reflexivity|].
        repeat split. intros N. exfalso. eapply N. reflexivity.
      * exists b. auto.
    + intros _. cbn [snd]. repeat split; auto. intros k b G. exists b. auto.
  - apply Same. apply failure_leaves_state; [exact U|]. now rewrite F.
Qed.

Lemma failed_call_effect_witness :
  let s := run both_lent init in
  let s' := snd (call 739002 (UpdateBook 100 (Some "Animal Farm") None None (Some 1)) s) in
  _users s' = _users s /\ _records s' = _records s /\
  _next_record_id s' = _next_record_id s.
Proof.
  destruct (failed_call_effect 739002
              (UpdateBook 100 (Some "Animal Farm") None None (Some 1))
              (run both_lent init) LessThanBorrowed eq_refl)
    as (U & Rc & N & _).
  cbv zeta. split; [exact U|]. split; [exact Rc | exact N].
Defined.

(** ** Searching *)

Lemma lower_empty x : ascii_lower x = "" <-> x = "".
Proof. destruct x; simpl; split; congruence. Qed.






(** ** Copies of a book *)

(** X20. On a book with [0 <= available_copies <= total_copies],
    [Book.borrow_copy] goes through exactly when a copy is available and
    [Book.return_copy] exactly when one is out; each keeps the bounds and
    undoes the other. *)
Theorem borrow_copy_return_copy b :
  book_ok b ->
  (if 0 <? Book.available_copies b then
     exists b', Book.borrow_copy b = Ok b' /\ book_ok b' /\
                Book.available_copies b' = Book.available_copies b - 1 /\
                Book.return_copy b' = Ok b
   else Book.borrow_copy b = Err (NoAvailableCopies (Book.title b))) /\
  (if Book.available_copies b <? Book.total_copies b then
     exists b', Book.return_copy b = Ok b' /\ book_ok b' /\
                Book.available_copies b' = Book.available_copies b + 1 /\
                Book.borrow_copy b' = Ok b
   else Book.return_copy b = Err (AllCopiesInLibrary (Book.title b))).
Proof.
  unfold book_ok. intros Hb. destruct b as [i t a c n av]. cbn in Hb.
  unfold Book.borrow_copy, Book.return_copy, Book.set_available_copies, book_ok.
  cbn. split.
  - destruct (Z.ltb_spec 0 av).
    + destruct (Z.leb_spec av 0); [lia|]. eexists. split; [reflexivity|].
      cbn. split; [lia|]. split; [reflexivity|].
      destruct (Z.geb_spec (av - 1) n); [lia|]. do 2 f_equal. lia.
    + destruct (Z.leb_spec av 0); [reflexivity|lia].
  - destruct (Z.ltb_spec av n).
    + destruct (Z.geb_spec av n); [lia|]. eexists. split; [reflexivity|].
      cbn. split; [lia|]. split; [reflexivity|].
      destruct (Z.leb_spec (av + 1) 0); [lia|]. do 2 f_equal. lia.
    + destruct (Z.geb_spec av n); [reflexivity|lia].
Qed.

Lemma borrow_copy_return_copy_witness :
  (exists b', Book.borrow_copy (Book.mk 100 "1984" "Orwell" "Fiction" 2 2) = Ok b' /\
              Book.return_copy b' = Ok (Book.mk 100 "1984" "Orwell" "Fiction" 2 2)) /\
  Book.return_copy (Book.mk 100 "1984" "Orwell" "Fiction" 2 2) =
    Err (AllCopiesInLibrary "1984").
Proof.
  destruct (borrow_copy_return_copy (Book.mk 100 "1984" "Orwell" "Fiction" 2 2))
    as [B Rt].
  - unfold book_ok. cbn. lia.
  - cbn in B, Rt. destruct B as (b' & B & _ & _ & Back).
    split; [exists b'; split; [exact B | exact Back] | exact Rt].
Defined.

(** X21. In every reachable state [list_all_books] shows no id twice, and a
    book is in the list exactly when the catalog holds it under its own
    [book_id]. *)
Theorem listed_books_have_distinct_ids s :
  reachable s ->
  exists listed,
    list_all_books s = (Ok listed, s) /\
    NoDup (map Book.book_id listed) /\
    (forall b, In b listed <-> Dict.get (Book.book_id b) (_books s) = Some b).
Proof.
  intros R. apply reachable_wf in R. eexists. split; [reflexivity|]. split.
  - rewrite (keyed_values_keys _ _ (wf_books s R)). apply (wf_nodup s R).
  - intros b. split.
    + intros I. unfold Dict.values in I. apply in_map_iff in I.
      destruct I as ([k b'] & E & I). cbn in E. subst b'.
      pose proof (wf_books s R) as K. unfold keyed_by in K.
      rewrite Forall_forall in K. pose proof (K _ I) as Ek. cbn in Ek.
      rewrite Ek. apply In_get; [apply (wf_nodup s R) | exact I].
    + apply DictFacts.get_In_values.
Qed.

Lemma listed_books_have_distinct_ids_witness :
  exists listed,
    list_all_books (run replaced init) = (Ok listed, run replaced init) /\
    NoDup (map Book.book_id listed).
Proof.
  destruct (listed_books_have_distinct_ids (run replaced init))
    as (listed & L & N & _).
  - apply reachable_run, reachable_init.
  - exists listed. split; [exact L | exact N].
Defined.
